(** * GOES XRS parameter search: trigger, observation window, cancellation
      and success classification

    A shallow embedding of [GOES_XRS/updated_paramsearch.py] (class
    [ParameterSearch]) and the properties of its per-flare simulation, of
    its per-configuration classification and of the sweep over the parameter
    grid.

    Modelling choices.
    - The series of a flare are numpy arrays of doubles (dtype [float64]),
      the thresholds are doubles.  Flux samples, timestamps and thresholds
      are [Q]: every finite double is a rational and the comparisons the
      program performs on two doubles ([>], [>=], [<], [==]) are exact.  A
      series that holds a NaN or an infinity, and a series of integers too
      large for a double (which numpy rounds before it compares them with a
      double), have no counterpart here; where a statement depends on it, it
      says that the numbers are doubles ([Np.is_float64]).
    - [np.mean] is computed in double precision, every operation rounded to
      the nearest double ([Np.round64]).  The product [0.2 * peak flux] and
      the division by 60 are exact.
    - [math.nan], the program's marker for a value that could not be
      computed, is the constructor [Nan] of [pyval].
    - Python exceptions are the [Raise] outcome of [result].
    - The instance attributes that [flareloop_check_if_value_surpassed]
      leaves behind for [calculate_observed_xrsb_and_cancellation] are the
      fields of the record [self], passed explicitly. *)

From Stdlib Require Import String List Bool Arith ZArith QArith Qminmax Lia Lqa Sorted.
Import ListNotations.
Open Scope nat_scope.

(** ** Python outcomes *)

Module Py.

Inductive exn : Type :=
| IndexError
| ValueError
| Unmodelled.

Inductive result (A : Type) : Type :=
| Ok (a : A)
| Raise (e : exn).

Arguments Ok {A} a.
Arguments Raise {A} e.

Definition bind {A B : Type} (m : result A) (k : A -> result B) : result B :=
  match m with
  | Ok a => k a
  | Raise e => Raise e
  end.

(** A value held by a cell of the results table. *)
Inductive pyval : Type :=
| Float (q : Q)
| Boolean (b : bool)
| Nan.

(** [pandas.isna] on a cell. *)
Definition isna (v : pyval) : bool :=
  match v with
  | Nan => true
  | _ => false
  end.

(** [v == True] on a cell: [nan == True] is [False]. *)
Definition is_true (v : pyval) : bool :=
  match v with
  | Boolean b => b
  | _ => false
  end.

(** [l[k]] for a non-negative index. *)
Definition getitem {A : Type} (l : list A) (k : nat) : result A :=
  match nth_error l k with
  | Some a => Ok a
  | None => Raise IndexError
  end.

(** [l[a:b]] for non-negative bounds: the bounds are clipped to the
    length, nothing is raised. *)
Definition slice {A : Type} (l : list A) (a b : nat) : list A :=
  firstn (b - a) (skipn a l).

End Py.

Import Py.

Notation "x <- m ;; k" := (Py.bind m (fun x => k))
  (at level 61, m at next level, right associativity).

(** Comparisons of two numbers, as booleans. *)
Definition Qgtb (x y : Q) : bool := negb (Qle_bool x y).
Definition Qgeb (x y : Q) : bool := Qle_bool y x.
Definition Qltb (x y : Q) : bool := negb (Qle_bool y x).

(** ** numpy *)

Module Np.

(** [np.where(mask)[0]] of a one-dimensional mask: the positions of its
    true entries, in increasing order. *)
Fixpoint where_from (k : nat) (mask : list bool) : list nat :=
  match mask with
  | [] => []
  | b :: m => if b then k :: where_from (S k) m else where_from (S k) m
  end.

Definition np_where (mask : list bool) : list nat := where_from 0 mask.

(** [np.max] raises on an empty array. *)
Definition max (l : list Q) : result Q :=
  match l with
  | [] => Raise ValueError
  | x :: r => Ok (fold_left Qmax r x)
  end.

(** *** Double precision

    A [np.float64] operation returns the exact result rounded to the nearest
    double, ties to the double with an even significand (IEEE 754 binary64:
    53 significant bits, least exponent -1022). *)

(** The integer nearest to [num / den], ties to even, for [0 <= num] and
    [0 < den]. *)
Definition nearest_even (num den : Z) : Z :=
  let q := (num / den)%Z in
  match (2 * (num mod den) ?= den)%Z with
  | Lt => q
  | Gt => (q + 1)%Z
  | Eq => if Z.even q then q else (q + 1)%Z
  end.

(** The integer [e] with [2 ^ e <= n / d < 2 ^ (e + 1)], for [0 < n] and
    [0 < d]. *)
Definition floor_log2 (n d : Z) : Z :=
  let e := (Z.log2 n - Z.log2 d)%Z in
  if (n * 2 ^ Z.max 0 (- e) <? d * 2 ^ Z.max 0 e)%Z then (e - 1)%Z else e.

Definition pow2 (e : Z) : Q :=
  if (0 <=? e)%Z then inject_Z (2 ^ e) else 1 # Z.to_pos (2 ^ (- e)).

(** The significand and the exponent of the double nearest to [q]: the
    result is [fst * 2 ^ snd]. *)
Definition nearest_double (q : Q) : Z * Z :=
  let n := Z.abs (Qnum q) in
  let d := Zpos (Qden q) in
  if (n =? 0)%Z then (0%Z, 0%Z)
  else
    let e := floor_log2 n d in
    let qe := (Z.max e (-1022) - 52)%Z in
    (nearest_even (n * 2 ^ Z.max 0 (- qe)) (d * 2 ^ Z.max 0 qe), qe).

Definition round64 (q : Q) : Q :=
  let (m, qe) := nearest_double q in
  (inject_Z (Z.sgn (Qnum q) * m) * pow2 qe)%Q.

(** The rounded result is out of the range of the doubles: the operation
    returns an infinity, which [Q] does not hold. *)
Definition overflows (q : Q) : bool :=
  let (m, qe) := nearest_double q in
  Qle_bool (inject_Z (2 ^ 1024)) (inject_Z m * pow2 qe).

(** [q] is the value of a double. *)
Definition is_float64 (q : Q) : bool :=
  Qeq_bool (round64 q) q && negb (overflows q).

(** [np.add.reduce] on fewer than 8 doubles, as many as an observation
    window can hold: they are added in order, from 0, each sum rounded.
    (From 8 elements on numpy adds in another order.) *)
Definition sum (l : list Q) : Q :=
  fold_left (fun acc x => round64 (acc + x)) l 0%Q.

(** [np.mean]: the sum divided by the number of samples, rounded. *)
Definition mean (l : list Q) : Q :=
  round64 (sum l / inject_Z (Z.of_nat (length l))).

(** No sum on the way to [mean l] leaves the range of the doubles. *)
Fixpoint sums_in_range (acc : Q) (l : list Q) : bool :=
  match l with
  | [] => true
  | x :: r => negb (overflows (acc + x)) && sums_in_range (round64 (acc + x)) r
  end.

Definition in_range (l : list Q) : bool := sums_in_range 0 l.

End Np.

(** ** pandas: the boolean frame built by the multi-channel trigger *)

Module Pd.

(** Columns in insertion order.  The label of a column is [f'param {p}']:
    for the thresholds of one row of the grid, which are doubles, two labels
    are the same string exactly when the thresholds are the same number, so a
    column is keyed by its threshold.  (The two zeros of the doubles are the
    one exception: [0.0] and [-0.0] are equal and print differently.) *)
Definition frame : Type := list (Q * list bool).

Definition index_len (df : frame) : nat :=
  match df with
  | [] => 0
  | (_, c) :: _ => length c
  end.

(** Assignment to an existing label replaces that column where it stands,
    assignment to a new label appends a column. *)
Fixpoint set_column (df : frame) (p : Q) (col : list bool) : frame :=
  match df with
  | [] => [(p, col)]
  | (q, c) :: rest =>
      if Qeq_bool q p then (q, col) :: rest
      else (q, c) :: set_column rest p col
  end.

(** [df[label] = col].  The first column gives the frame its index; later
    columns must have that length, or pandas raises [ValueError].  A frame
    whose index is still empty does not raise on a later non-empty column:
    pandas grows the index and fills the columns that were there.  That case
    is not modelled, its outcome here is [Unmodelled]; the statements on the
    multi-channel check assume series of one length, which never reach it. *)
Definition setitem (df : frame) (p : Q) (col : list bool) : result frame :=
  match df with
  | [] => Ok [(p, col)]
  | _ :: _ =>
      if length col =? index_len df then Ok (set_column df p col)
      else if index_len df =? 0 then Raise Unmodelled
      else Raise ValueError
  end.

(** [df.all(1)]: one boolean per row, the conjunction over the columns. *)
Definition all_rows (df : frame) : list bool :=
  map (fun k => forallb (fun c => nth k (snd c) false) df)
      (seq 0 (index_len df)).

End Pd.

(** ** The flare archive *)

Record flare : Type := {
  time : list Q;
  xrsa : list Q;
  xrsb : list Q;
  flare_ID : Z;
  peak_time : Q;
  class : string;
  peak_flux : Q;
  start_to_peak_time : Q;
  background_flux : Q
}.

(** ** Flare loop *)

(** What [flareloop_check_if_value_surpassed] is called with: a scalar
    threshold ([np.float64] or [np.int64]) against one series, or a row of
    thresholds zipped with a list of series. *)
Inductive trigger_input : Type :=
| SingleChannel (arrays : list Q) (parameters : Q)
| MultiChannel (arrays : list (list Q)) (parameters : list Q).

(** One entry of [calculated_flarelist]:
    [[i, flare_ID, cancellation_bool, trigger_time, peak_bool,
      hic_max_observed, hic_mean_observed]]. *)
Record launch : Type := {
  Flare_Number : nat;
  Flare_ID : Z;
  Cancelled : pyval;
  Trigger_Time : Q;
  Peak_Observed : pyval;
  Max_HiC : pyval;
  Mean_HiC : pyval
}.

(** The attributes of the instance that the flare loop reads and writes.
    [trigger_index], [hic_obs_start] and [hic_obs_end] are only read after a
    call that set [triggered_bool]. *)
Record self : Type := {
  triggered_bool : bool;
  trigger_index : nat;
  hic_obs_start : nat;
  hic_obs_end : nat;
  calculated_flarelist : list launch
}.

Module ParameterSearch.

(** The loop [for arr, p in zip(arrays, parameters): df[f'param {p}'] =
    np.array(arr) >= p]. *)
Fixpoint fill_frame (df : Pd.frame) (pairs : list (list Q * Q))
  : result Pd.frame :=
  match pairs with
  | [] => Ok df
  | (arr, p) :: rest =>
      df' <- Pd.setitem df p (map (fun x => Qgeb x p) arr) ;;
      fill_frame df' rest
  end.

Definition triggered_check (inp : trigger_input) : result (list nat) :=
  match inp with
  | SingleChannel arrays parameters =>
      Ok (Np.np_where (map (fun x => Qgtb x parameters) arrays))
  | MultiChannel arrays parameters =>
      df <- fill_frame [] (combine arrays parameters) ;;
      Ok (Np.np_where (Pd.all_rows df))
  end.

Definition flareloop_check_if_value_surpassed (s : self) (inp : trigger_input)
  : result self :=
  checked <- triggered_check inp ;;
  match checked with
  | [] =>
      Ok {| triggered_bool := false;
            trigger_index := trigger_index s;
            hic_obs_start := hic_obs_start s;
            hic_obs_end := hic_obs_end s;
            calculated_flarelist := calculated_flarelist s |}
  | t :: _ =>
      Ok {| triggered_bool := true;
            trigger_index := t;
            hic_obs_start := t + 3 + 4 + 2;
            hic_obs_end := (t + 3 + 4 + 2) + 6;
            calculated_flarelist := calculated_flarelist s |}
  end.


(** Line 122: did the window open after the reference sample [time[14]]
    and before the peak of the flare. *)
Definition peak_observed (fl : flare) (s : self) : result bool :=
  t14 <- getitem (time fl) 14 ;;
  t_start <- getitem (time fl) (hic_obs_start s) ;;
  Ok (Qltb t14 t_start && Qltb t_start (peak_time fl)).

(** Lines 114-122: the observation window [xrsb[hic_obs_start:hic_obs_end]]
    and what the instrument would have seen in it:
    [(hic_max_observed, hic_mean_observed, peak_bool)]. *)
Definition observed (fl : flare) (s : self) : result (pyval * pyval * pyval) :=
  let hic_obs_xrsb := slice (xrsb fl) (hic_obs_start s) (hic_obs_end s) in
  if length hic_obs_xrsb =? 0 then Ok (Nan, Nan, Nan)
  else
    hic_max_observed <- Np.max hic_obs_xrsb ;;
    let hic_mean_observed := Np.mean hic_obs_xrsb in
    peak_bool <- peak_observed fl s ;;
    Ok (Float hic_max_observed, Float hic_mean_observed, Boolean peak_bool).

(** Lines 126-129: would the launch have been cancelled. *)
Definition cancellation (fl : flare) (s : self) : result pyval :=
  if trigger_index s + 3 <? length (xrsa fl) then
    later <- getitem (xrsa fl) (trigger_index s + 3) ;;
    at_trigger <- getitem (xrsa fl) (trigger_index s) ;;
    Ok (Boolean (Qltb (later - at_trigger) 0))
  else Ok Nan.

Definition calculate_observed_xrsb_and_cancellation
  (data : list flare) (s : self) (i : nat) : result self :=
  fl <- getitem data i ;;
  obs <- observed fl s ;;
  let '(hic_max_observed, hic_mean_observed, peak_bool) := obs in
  trigger_time <- getitem (time fl) (trigger_index s) ;;
  cancellation_bool <- cancellation fl s ;;
  Ok {| triggered_bool := triggered_bool s;
        trigger_index := trigger_index s;
        hic_obs_start := hic_obs_start s;
        hic_obs_end := hic_obs_end s;
        calculated_flarelist :=
          calculated_flarelist s ++
          [ {| Flare_Number := i;
               Flare_ID := flare_ID fl;
               Cancelled := cancellation_bool;
               Trigger_Time := trigger_time;
               Peak_Observed := peak_bool;
               Max_HiC := hic_max_observed;
               Mean_HiC := hic_mean_observed |} ] |}.

(** [loop_through_flares]: the [i]-th entry of [checks] is [param_arrays[i]]
    together with the parameter of the run. *)
Fixpoint loop_from (data : list flare) (i : nat) (checks : list trigger_input)
  (s : self) : result self :=
  match checks with
  | [] => Ok s
  | inp :: rest =>
      s1 <- flareloop_check_if_value_surpassed s inp ;;
      s2 <- (if triggered_bool s1
             then calculate_observed_xrsb_and_cancellation data s1 i
             else Ok s1) ;;
      loop_from data (S i) rest s2
  end.

Definition loop_through_flares (data : list flare) (checks : list trigger_input)
  (s : self) : result self :=
  loop_from data 0 checks s.

(** *** Post-loop functions *)

(** The columns that [save_fitsinfo_to_df] writes for one row.
    [Flare_success] is the column [f'Flare_{success_flux_key}']. *)
Record fitsinfo : Type := {
  Flare_Class : string;
  Flare_Max_Flux : Q;
  Start_to_Peak_Time : Q;
  Flare_success : bool;
  Background_Flux : Q;
  Peak_Time : Q;
  Duration : Z;
  Trigger_to_Peak_Time : Q;
  LongDuration : pyval
}.

(** A row of [launches_df] when [perform_postloop_functions] is done. *)
Record row : Type := {
  entry : launch;
  info : fitsinfo;
  Flare_success_LongDuration : bool;
  HiC_Max_LongDuration : bool;
  HiC_Mean_LongDuration : bool
}.

Definition save_flarelist_to_df (s : self) : list launch :=
  calculated_flarelist s.

(** [np.where(flare_id == self.data['flare ID'])[0][0]]. *)
Definition launched_flare (data : list flare) (flare_id : Z) : result nat :=
  getitem (Np.np_where (map (fun fl => Z.eqb flare_id (flare_ID fl)) data)) 0.

(** The body of the loop of [save_fitsinfo_to_df], for the row [l]. *)
Definition fitsinfo_of (data : list flare) (success_flux_value : Q) (l : launch)
  : result fitsinfo :=
  k <- launched_flare data (Flare_ID l) ;;
  fl <- getitem data k ;;
  let min_flux_level := (peak_flux fl * (2 # 10))%Q in
  let peak_time_indx :=
    Np.np_where (map (fun t => Qeq_bool t (peak_time fl)) (time fl)) in
  long_duration <-
    match peak_time_indx with
    | p :: _ =>
        final_flux <- (if length (time fl) <=? p + 20 then Ok 0%Q
                       else getitem (time fl) (p + 20)) ;;
        Ok (Boolean (Qgtb final_flux min_flux_level))
    | [] => Ok Nan
    end ;;
  Ok {| Flare_Class := class fl;
        Flare_Max_Flux := peak_flux fl;
        Start_to_Peak_Time := start_to_peak_time fl;
        Flare_success := Qgtb (peak_flux fl) success_flux_value;
        Background_Flux := background_flux fl;
        Peak_Time := peak_time fl;
        Duration := (Z.of_nat (length (xrsa fl)) - 30)%Z;
        Trigger_to_Peak_Time := ((peak_time fl - Trigger_Time l) / 60)%Q;
        LongDuration := long_duration |}.

Fixpoint save_fitsinfo_to_df (data : list flare) (success_flux_value : Q)
  (df : list launch) : result (list (launch * fitsinfo)) :=
  match df with
  | [] => Ok []
  | l :: rest =>
      fi <- fitsinfo_of data success_flux_value l ;;
      rows <- save_fitsinfo_to_df data success_flux_value rest ;;
      Ok ((l, fi) :: rows)
  end.

(** [(df[f'Flare_{key}'] == True) & (df['LongDuration'] == True)]. *)
Definition calculate_Successlevel_andLongDuration (fi : fitsinfo) : bool :=
  Flare_success fi && is_true (LongDuration fi).

(** [column > df['Flare_Max_Flux'] * 0.2]; a comparison with [nan] is
    [False]. *)
Definition above_fifth_of_peak (v : pyval) (fi : fitsinfo) : bool :=
  match v with
  | Float x => Qgtb x (Flare_Max_Flux fi * (2 # 10))%Q
  | _ => false
  end.

Definition calculate_HiCobs_success (l : launch) (fi : fitsinfo) : bool * bool :=
  (above_fifth_of_peak (Max_HiC l) fi, above_fifth_of_peak (Mean_HiC l) fi).

(** [dropna(subset=['Max_HiC', 'LongDuration'])]. *)
Definition drop_na (df : list row) : list row :=
  filter (fun r => negb (isna (Max_HiC (entry r)) || isna (LongDuration (info r))))
         df.

Definition perform_postloop_functions (data : list flare)
  (success_flux_value : Q) (s : self) : result (list row) :=
  joined <- save_fitsinfo_to_df data success_flux_value (save_flarelist_to_df s) ;;
  Ok (drop_na
        (map (fun lf =>
                {| entry := fst lf;
                   info := snd lf;
                   Flare_success_LongDuration :=
                     calculate_Successlevel_andLongDuration (snd lf);
                   HiC_Max_LongDuration :=
                     fst (calculate_HiCobs_success (fst lf) (snd lf));
                   HiC_Mean_LongDuration :=
                     snd (calculate_HiCobs_success (fst lf) (snd lf)) |})
             joined)).

(** One turn of [loop_through_parameters], from an instance whose flare list
    is empty: the table handed to [save_launch_DataFrame], or [None] when no
    flare triggered and nothing is saved. *)
Definition run_parameter (data : list flare) (success_flux_value : Q)
  (checks : list trigger_input) (s : self) : result (option (list row)) :=
  s' <- loop_through_flares data checks s ;;
  if 0 <? length (calculated_flarelist s') then
    df <- perform_postloop_functions data success_flux_value s' ;;
    Ok (Some df)
  else Ok None.


(** *** The trigger condition, as the specification words it *)

(** Single channel: the sample at [k] strictly exceeds the threshold. *)
Definition single_condition (arrays : list Q) (parameters : Q) (k : nat) : Prop :=
  exists x, nth_error arrays k = Some x /\ (parameters < x)%Q.

(** Several channels: every paired series is at or above its threshold
    at [k]. *)
Definition multi_condition (arrays : list (list Q)) (parameters : list Q)
  (k : nat) : Prop :=
  forall arr p, In (arr, p) (combine arrays parameters) ->
    exists x, nth_error arr k = Some x /\ (p <= x)%Q.

Definition condition (inp : trigger_input) (k : nat) : Prop :=
  match inp with
  | SingleChannel arrays parameters => single_condition arrays parameters k
  | MultiChannel arrays parameters => multi_condition arrays parameters k
  end.

(** The column that the pair [(arr, p)] contributes. *)
Definition column_of (pair : list Q * Q) : Q * list bool :=
  (snd pair, map (fun x => Qgeb x (snd pair)) (fst pair)).

(** No two of the thresholds are the same number. *)
Fixpoint distinct (ps : list Q) : bool :=
  match ps with
  | [] => true
  | p :: r => forallb (fun q => negb (Qeq_bool p q)) r && distinct r
  end.

(** [x] lies strictly between [a] and [b]. *)
Definition strictly_between (a b x : Q) : Prop := (a < x)%Q /\ (x < b)%Q.

(** The sum of a series, and the observation window of a flare. *)
Definition total (l : list Q) : Q := fold_right Qplus 0%Q l.

Definition window (fl : flare) (s : self) : list Q :=
  slice (xrsb fl) (hic_obs_start s) (hic_obs_end s).

(** The cancellation outcome [c] for a trigger at [t]: unknown exactly
    when the sample three steps later is missing, otherwise true exactly
    when that sample is strictly smaller than the sample at the trigger. *)
Definition would_cancel (xrsa : list Q) (t : nat) (c : pyval) : Prop :=
  (c = Nan <-> length xrsa <= t + 3) /\
  (t + 3 < length xrsa ->
   exists later at_trigger,
     nth_error xrsa (t + 3) = Some later /\
     nth_error xrsa t = Some at_trigger /\
     exists b, c = Boolean b /\ (b = true <-> (later < at_trigger)%Q)).

(** [m] is the maximum of [w], [a] is its arithmetic mean. *)
Definition is_maximum (m : Q) (w : list Q) : Prop :=
  In m w /\ forall y, In y w -> (y <= m)%Q.

Definition is_mean (a : Q) (w : list Q) : Prop :=
  (a * inject_Z (Z.of_nat (length w)) == total w)%Q.

(** The observation outputs for the window [w]: all unknown when the
    window is empty, otherwise the maximum and the mean of the window. *)
Definition observation_outputs (w : list Q) (l : launch) : Prop :=
  (w = [] -> Max_HiC l = Nan /\ Mean_HiC l = Nan /\ Peak_Observed l = Nan) /\
  (w <> [] ->
   exists m a, Max_HiC l = Float m /\ Mean_HiC l = Float a /\
               is_maximum m w /\ is_mean a w).

(** [t] is the sum of [w] in double precision: the samples are added in
    order and every partial sum is rounded to the nearest double. *)
Inductive rounded_sum : list Q -> Q -> Prop :=
| rounded_sum_nil : rounded_sum [] 0%Q
| rounded_sum_snoc (w : list Q) (t x : Q) :
    rounded_sum w t -> rounded_sum (w ++ [x]) (Np.round64 (t + x)).

(** [a] is the mean of [w] in double precision: the rounded sum divided by
    the number of samples, the quotient rounded to the nearest double. *)
Definition is_rounded_mean (a : Q) (w : list Q) : Prop :=
  exists t, rounded_sum w t /\
            a = Np.round64 (t / inject_Z (Z.of_nat (length w))).

(** The observation outputs with the mean in double precision. *)
Definition observation_computed (w : list Q) (l : launch) : Prop :=
  (w = [] -> Max_HiC l = Nan /\ Mean_HiC l = Nan /\ Peak_Observed l = Nan) /\
  (w <> [] ->
   exists m a, Max_HiC l = Float m /\ Mean_HiC l = Float a /\
               is_maximum m w /\ is_rounded_mean a w).

(** A row that the final filter keeps. *)
Definition known (r : row) : Prop :=
  Max_HiC (entry r) <> Nan /\ LongDuration (info r) <> Nan.

(** [k] is the first record of the archive with the identifier [id]. *)
Definition first_match (data : list flare) (id : Z) (k : nat) : Prop :=
  (exists fl, nth_error data k = Some fl /\ flare_ID fl = id) /\
  forall j fl, j < k -> nth_error data j = Some fl -> flare_ID fl <> id.

(** The joined columns of [fi] are those of the record [fl]. *)
Definition joined_from (fl : flare) (fi : fitsinfo) : Prop :=
  Flare_Max_Flux fi = peak_flux fl /\
  Peak_Time fi = peak_time fl /\
  Start_to_Peak_Time fi = start_to_peak_time fl /\
  Background_Flux fi = background_flux fl /\
  Flare_Class fi = class fl /\
  Duration fi = (Z.of_nat (length (xrsa fl)) - 30)%Z.

(** An instance on which nothing has run yet. *)
Definition fresh : self :=
  {| triggered_bool := false;
     trigger_index := 0;
     hic_obs_start := 0;
     hic_obs_end := 0;
     calculated_flarelist := [] |}.

End ParameterSearch.

(** ** Sample flares *)

Module Sample.

(** One sample a minute: [0, 60, 120, ...] seconds. *)
Definition minutes (n : nat) : list Q :=
  map (fun k => inject_Z (60 * Z.of_nat k)) (seq 0 n).

(** A flare of [n] samples, flat in both channels. *)
Definition flat (n : nat) (id : Z) (peak_at : Q) : flare :=
  {| time := minutes n;
     xrsa := repeat 1%Q n;
     xrsb := repeat 2%Q n;
     flare_ID := id;
     peak_time := peak_at;
     class := "C2";
     peak_flux := 2%Q;
     start_to_peak_time := 300%Q;
     background_flux := 1%Q |}.

(** Twelve samples, above the threshold [1] from the first sample on. *)
Definition short : flare := flat 12 11%Z 300%Q.

(** Thirty samples; [xrsb] rises above [1] at index 10 and peaks at index
    25 with flux [10]; five samples after the peak the record ends. *)
Definition late : flare :=
  {| time := minutes 30;
     xrsa := repeat 1%Q 10 ++ repeat 3%Q 20;
     xrsb := repeat 1%Q 10 ++ repeat 4%Q 15 ++ [10; 6; 4; 2; 1]%Q;
     flare_ID := 12%Z;
     peak_time := 1500%Q;
     class := "M1";
     peak_flux := 10%Q;
     start_to_peak_time := 900%Q;
     background_flux := 1%Q |}.

(** Fifty samples; [xrsb] peaks at index 20 with flux [10] and is back at
    [1] from index 25 on, [xrsa] likewise. *)
Definition brief : flare :=
  {| time := minutes 50;
     xrsa := repeat 1%Q 18 ++ [2; 4; 5; 4; 3; 2; 1]%Q ++ repeat 1%Q 25;
     xrsb := repeat 1%Q 18 ++ [3; 8; 10; 7; 5; 3; 2]%Q ++ repeat 1%Q 25;
     flare_ID := 13%Z;
     peak_time := 1200%Q;
     class := "M1";
     peak_flux := 10%Q;
     start_to_peak_time := 180%Q;
     background_flux := 1%Q |}.

(** Ten samples, above the threshold [1] only from index 8 on. *)
Definition trailing : flare :=
  {| time := minutes 10;
     xrsa := repeat 1%Q 10;
     xrsb := repeat 1%Q 8 ++ [2; 2]%Q;
     flare_ID := 14%Z;
     peak_time := 480%Q;
     class := "B2";
     peak_flux := 2%Q;
     start_to_peak_time := 60%Q;
     background_flux := 1%Q |}.

(** Thirty samples; [xrsb] rises above [1] at index 18, so that the window
    [[27, 33)] runs three samples past the end of the record. *)
Definition closing : flare :=
  {| time := minutes 30;
     xrsa := repeat 1%Q 18 ++ [1; 2; 3; 4; 5; 5; 4; 4; 3; 3; 2; 2]%Q;
     xrsb := repeat 1%Q 18 ++ [2; 3; 5; 8; 9; 10; 9; 8; 7; 6; 5; 4]%Q;
     flare_ID := 15%Z;
     peak_time := 1380%Q;
     class := "M1";
     peak_flux := 10%Q;
     start_to_peak_time := 300%Q;
     background_flux := 1%Q |}.

(** Ten samples, above the threshold [1] from index 7 on: three places after
    the trigger the record has just ended. *)
Definition ending : flare :=
  {| time := minutes 10;
     xrsa := repeat 1%Q 10;
     xrsb := repeat 1%Q 7 ++ [2; 2; 2]%Q;
     flare_ID := 16%Z;
     peak_time := 420%Q;
     class := "B2";
     peak_flux := 2%Q;
     start_to_peak_time := 60%Q;
     background_flux := 1%Q |}.

(** Thirty samples; [xrsb] rises above [1] at index 10 and the window
    [[19, 25)] holds [1, 1, 2, 1, 1, 2], whose mean 4/3 is not a double. *)
Definition uneven : flare :=
  {| time := minutes 30;
     xrsa := repeat 1%Q 30;
     xrsb := repeat 1%Q 10 ++ repeat 3%Q 9 ++ [1; 1; 2; 1; 1; 2]%Q
             ++ repeat 1%Q 5;
     flare_ID := 17%Z;
     peak_time := 600%Q;
     class := "B3";
     peak_flux := 3%Q;
     start_to_peak_time := 60%Q;
     background_flux := 1%Q |}.

(** Fourteen samples; [xrsb] rises above [1] at index 3, so that the window
    [[12, 18)] holds the last two samples of the record. *)
Definition cut : flare :=
  {| time := minutes 14;
     xrsa := repeat 1%Q 14;
     xrsb := repeat 1%Q 3 ++ [2; 3; 4; 5; 6; 7; 8; 9; 8; 7; 6]%Q;
     flare_ID := 18%Z;
     peak_time := 600%Q;
     class := "B9";
     peak_flux := 9%Q;
     start_to_peak_time := 420%Q;
     background_flux := 1%Q |}.

(** A second record carrying the identifier of [late]. *)
Definition late_again : flare :=
  {| time := minutes 40;
     xrsa := repeat 1%Q 40;
     xrsb := repeat 1%Q 40;
     flare_ID := 12%Z;
     peak_time := 600%Q;
     class := "B1";
     peak_flux := 1%Q;
     start_to_peak_time := 60%Q;
     background_flux := 1%Q |}.

(** The instance after a trigger at index [t], with an empty flare list. *)
Definition triggered_at (t : nat) : self :=
  {| triggered_bool := true;
     trigger_index := t;
     hic_obs_start := t + 3 + 4 + 2;
     hic_obs_end := (t + 3 + 4 + 2) + 6;
     calculated_flarelist := [] |}.

(** Scenario A of the specification: [xrsb] crosses [1e-5] at index 5 and
    stays flat for 20 samples. *)
Definition scenario_A : flare :=
  {| time := minutes 25;
     xrsa := repeat (1 # 1000000)%Q 25;
     xrsb := repeat (1 # 1000000)%Q 5 ++ repeat (2 # 100000)%Q 20;
     flare_ID := 1%Z;
     peak_time := 300%Q;
     class := "M2";
     peak_flux := (2 # 100000)%Q;
     start_to_peak_time := 300%Q;
     background_flux := (1 # 1000000)%Q |}.

(** Scenario B: [xrsa] reaches [1e-6] at index 2, [xrsb] reaches [1e-5] only
    at index 7. *)
Definition scenario_B : flare :=
  {| time := minutes 30;
     xrsa := repeat (1 # 10000000)%Q 2 ++ repeat (1 # 1000000)%Q 28;
     xrsb := repeat (1 # 1000000)%Q 7 ++ repeat (1 # 100000)%Q 23;
     flare_ID := 2%Z;
     peak_time := 420%Q;
     class := "M1";
     peak_flux := (1 # 100000)%Q;
     start_to_peak_time := 420%Q;
     background_flux := (1 # 1000000)%Q |}.

(** The single-channel run on [xrsb] with threshold [1]. *)
Definition xrsb_above_1 (fl : flare) : trigger_input :=
  SingleChannel (xrsb fl) 1%Q.

End Sample.

(** ** What the flare loop leaves in the flare list *)

Module FlareLoop.

Import ParameterSearch.

(** Of the pairs zipped by the multi-channel check, the ones whose column
    is still in the frame when [df.all(1)] runs: a pair is overwritten by any
    later pair with the same threshold. *)
Fixpoint effective (pairs : list (list Q * Q)) : list (list Q * Q) :=
  match pairs with
  | [] => []
  | (arr, p) :: rest =>
      if existsb (fun pr => Qeq_bool p (snd pr)) rest then effective rest
      else (arr, p) :: effective rest
  end.

(** Every pair that is still in the frame is at or above its threshold
    at [k]. *)
Definition effective_condition (arrays : list (list Q)) (parameters : list Q)
  (k : nat) : Prop :=
  forall arr p, In (arr, p) (effective (combine arrays parameters)) ->
    exists x, nth_error arr k = Some x /\ (p <= x)%Q.

(** Does the check trigger on this input. *)
Definition triggers (inp : trigger_input) : bool :=
  match triggered_check inp with
  | Ok (_ :: _) => true
  | _ => false
  end.

(** The positions, counted from [i], of the inputs that trigger. *)
Fixpoint triggering_from (i : nat) (checks : list trigger_input) : list nat :=
  match checks with
  | [] => []
  | inp :: rest =>
      if triggers inp then i :: triggering_from (S i) rest
      else triggering_from (S i) rest
  end.

(** The entry [l] is what a trigger of [inp] on the flare number [i]
    records. *)
Definition entry_of (data : list flare) (i : nat) (inp : trigger_input)
  (l : launch) : Prop :=
  exists fl t r s1,
    triggered_check inp = Ok (t :: r) /\
    nth_error data i = Some fl /\
    trigger_index s1 = t /\
    hic_obs_start s1 = t + 9 /\
    hic_obs_end s1 = t + 15 /\
    Flare_Number l = i /\
    Flare_ID l = flare_ID fl /\
    observed fl s1 = Ok (Max_HiC l, Mean_HiC l, Peak_Observed l) /\
    nth_error (time fl) t = Some (Trigger_Time l) /\
    cancellation fl s1 = Ok (Cancelled l).

(** The timestamps of a flare never decrease. *)
Definition time_ordered (fl : flare) : Prop :=
  forall i j a b,
    i <= j ->
    nth_error (time fl) i = Some a ->
    nth_error (time fl) j = Some b ->
    (a <= b)%Q.

(** Executable form of [time_ordered] on adjacent samples. *)
Fixpoint nondecreasing (l : list Q) : bool :=
  match l with
  | a :: ((b :: _) as r) => Qle_bool a b && nondecreasing r
  | _ => true
  end.

End FlareLoop.

(** ** The sweep over the parameter grid *)

Module Sweep.

Import ParameterSearch.

(** One element of [param_grid]: a scalar when the grid is one-dimensional,
    a row of thresholds when it is two-dimensional. *)
Inductive parameter : Type :=
| Scalar (p : Q)
| Combination (ps : list Q).

(** What aborts the sweep: a [TypeError], or an exception of the flare loop
    and the post-loop functions. *)
Inductive raised : Type :=
| TypeError
| Raised (e : exn).

(** The attributes of the instance that stay the same during the sweep.
    Each element of [param_arrays] is the list of series of one flare. *)
Record instance : Type := {
  data : list flare;
  success_flux_key : string;
  success_flux_value : Q;
  param_names : list string;
  param_units : list string;
  param_arrays : list (list (list Q))
}.

(** A column written by [save_param_combo_info]: a threshold under the name
    of the parameter, its unit under [f'{param_name}_units']. *)
Inductive combo_cell : Type :=
| Value (v : Q)
| Units (u : string).

(** The labels that the table has before [save_param_combo_info] runs. *)
Definition table_labels (key : string) : list string :=
  [ "Flare_Number"; "Flare_ID"; "Trigger_Time"; "Cancelled?";
    "Peak_Observed?"; "Max_HiC"; "Mean_HiC";
    "Flare_" ++ key; "Flare_" ++ key ++ "_LongDuration"; "LongDuration";
    "Flare_Class"; "Flare_Max_Flux"; "Peak_Time"; "Start_to_Peak_Time";
    "Trigger_to_Peak_Time"; "Duration"; "Background_Flux";
    "HiC_Max_LongDuration"; "HiC_Mean_LongDuration" ]%string.

Definition is_label (key name : string) : bool :=
  existsb (String.eqb name) (table_labels key).

(** [df[label] = cell] on the parameter columns: an existing label keeps
    its place and takes the new cell. *)
Fixpoint set_cell (cols : list (string * combo_cell)) (label : string)
  (cell : combo_cell) : list (string * combo_cell) :=
  match cols with
  | [] => [(label, cell)]
  | (l0, c0) :: rest =>
      if String.eqb l0 label then (l0, cell) :: rest
      else (l0, c0) :: set_cell rest label cell
  end.

(** [df[label]] on the parameter columns. *)
Fixpoint get_cell (cols : list (string * combo_cell)) (label : string)
  : option combo_cell :=
  match cols with
  | [] => None
  | (l0, c0) :: rest =>
      if String.eqb l0 label then Some c0 else get_cell rest label
  end.

(** The labels that [save_param_combo_info] writes, in the order of the
    writes. *)
Fixpoint combo_labels (names : list string) : list string :=
  match names with
  | [] => []
  | param_name :: rest =>
      param_name :: (param_name ++ "_units")%string :: combo_labels rest
  end.

(** The loop of [save_param_combo_info] from the [i]-th name on.
    [parameter[i]] and [self.param_units[i]] raise [IndexError] past the
    end.  A name that is also a label of the table would overwrite a
    column of results; that case is left out of the model. *)
Fixpoint combo_from (key : string) (i : nat) (names : list string)
  (ps : list Q) (units : list string) (cols : list (string * combo_cell))
  : result (list (string * combo_cell)) :=
  match names with
  | [] => Ok cols
  | param_name :: rest =>
      if is_label key param_name || is_label key (param_name ++ "_units")
      then Raise Unmodelled
      else
        v <- getitem ps i ;;
        u <- getitem units i ;;
        combo_from key (S i) rest ps units
          (set_cell (set_cell cols param_name (Value v))
                    (param_name ++ "_units")%string (Units u))
  end.

Definition save_param_combo_info (c : instance) (ps : list Q)
  : result (list (string * combo_cell)) :=
  combo_from (success_flux_key c) 0 (param_names c) ps (param_units c) [].

(** What [save_launch_DataFrame] writes for one configuration.  The file
    name is made of the thresholds, [savestring]; the table is [launches]
    with the constant columns [combo]. *)
Record saved : Type := {
  savestring : list Q;
  launches : list row;
  combo : list (string * combo_cell)
}.

(** Line 41, ["_".join([str(param) for param in parameter])]: a scalar of
    the grid is not iterable. *)
Definition parameter_savestring (parameter : parameter) : option (list Q) :=
  match parameter with
  | Scalar _ => None
  | Combination ps => Some ps
  end.

(** The body of the loop of [loop_through_parameters] for one parameter:
    the instance afterwards, and what was written, if anything. *)
Definition one_parameter (c : instance) (s : self) (parameter : parameter)
  : self * option saved + raised :=
  match parameter_savestring parameter with
  | None => inr TypeError
  | Some ps =>
      match loop_through_flares (data c)
              (map (fun arrays => MultiChannel arrays ps) (param_arrays c)) s with
      | Raise e => inr (Raised e)
      | Ok s1 =>
          if 0 <? length (calculated_flarelist s1) then
            match perform_postloop_functions (data c) (success_flux_value c) s1 with
            | Raise e => inr (Raised e)
            | Ok df =>
                match save_param_combo_info c ps with
                | Raise e => inr (Raised e)
                | Ok cols =>
                    inl ({| triggered_bool := triggered_bool s1;
                            trigger_index := trigger_index s1;
                            hic_obs_start := hic_obs_start s1;
                            hic_obs_end := hic_obs_end s1;
                            calculated_flarelist := [] |},
                         Some {| savestring := ps;
                                 launches := df;
                                 combo := cols |})
                end
            end
          else inl (s1, None)
      end
  end.

(** [loop_through_parameters]: the files written, in order, and the
    exception that ended the sweep, if one did. *)
Fixpoint loop_through_parameters (c : instance) (grid : list parameter)
  (s : self) : list saved * option raised :=
  match grid with
  | [] => ([], None)
  | parameter :: rest =>
      match one_parameter c s parameter with
      | inr e => ([], Some e)
      | inl (s', written) =>
          let (files, e) := loop_through_parameters c rest s' in
          (match written with
           | Some f => f :: files
           | None => files
           end, e)
      end
  end.

(** The same grid with every configuration run on an instance of its own. *)
Fixpoint each_alone (c : instance) (grid : list parameter)
  : list saved * option raised :=
  match grid with
  | [] => ([], None)
  | parameter :: rest =>
      match one_parameter c fresh parameter with
      | inr e => ([], Some e)
      | inl (_, written) =>
          let (files, e) := each_alone c rest in
          (match written with
           | Some f => f :: files
           | None => files
           end, e)
      end
  end.

End Sweep.

(** ** Sample runs *)

Module Run.

Import Sample.

(** Both channels of a flare, as one element of [param_arrays]. *)
Definition channels (fl : flare) : list (list Q) := [xrsa fl; xrsb fl].

(** An archive of three flares swept over [xrsa >= 2] and [xrsb >= 3]. *)
Definition archive : Sweep.instance :=
  {| Sweep.data := [late; brief; trailing];
     Sweep.success_flux_key := "C5";
     Sweep.success_flux_value := 5%Q;
     Sweep.param_names := ["xrsa"; "xrsb"]%string;
     Sweep.param_units := ["W/m^2"; "W/m^2"]%string;
     Sweep.param_arrays := [channels late; channels brief; channels trailing] |}.

Definition grid : list Sweep.parameter :=
  [ Sweep.Combination [2; 3]%Q;
    Sweep.Combination [100; 100]%Q;
    Sweep.Combination [3; 4]%Q ].

(** An archive in which two records carry the same identifier. *)
Definition duplicated : list flare := [trailing; late_again; late].

End Run.

(** * Properties *)

(** ** Comparisons *)

Lemma Qgtb_lt (x y : Q) : Qgtb x y = true <-> (y < x)%Q.
Proof.
  unfold Qgtb. rewrite negb_true_iff, <- not_true_iff_false, Qle_bool_iff.
  split; [apply Qnot_le_lt | apply Qlt_not_le].
Qed.

Lemma Qltb_lt (x y : Q) : Qltb x y = true <-> (x < y)%Q.
Proof. apply (Qgtb_lt y x). Qed.

Lemma Qgeb_le (x y : Q) : Qgeb x y = true <-> (y <= x)%Q.
Proof. apply Qle_bool_iff. Qed.

(** ** Positions of the true entries of a mask *)

Lemma where_from_head (mask : list bool) :
  forall k t r,
    Np.where_from k mask = t :: r ->
    k <= t /\ nth_error mask (t - k) = Some true /\
    forall j, j < t - k -> nth_error mask j = Some false.
Proof.
  induction mask as [|b m IH]; intros k t r H; simpl in H; [discriminate|].
  destruct b.
  - inversion H; subst. rewrite Nat.sub_diag.
    repeat split; [lia | intros j Hj; lia].
  - apply IH in H as (Hle & Hnth & Hbefore).
    replace (t - k) with (S (t - S k)) by lia.
    repeat split; [lia | exact Hnth |].
    intros [|j] Hj; [reflexivity | apply Hbefore; lia].
Qed.

Lemma where_from_nil (mask : list bool) :
  forall k, Np.where_from k mask = [] <-> Forall (fun b => b = false) mask.
Proof.
  induction mask as [|b m IH]; intros k; simpl.
  - split; auto.
  - destruct b; split; intros H.
    + discriminate.
    + inversion H; discriminate.
    + constructor; [reflexivity | apply (IH (S k)), H].
    + inversion H; subst. apply (IH (S k)); assumption.
Qed.

Lemma np_where_head (mask : list bool) (t : nat) (r : list nat) :
  Np.np_where mask = t :: r ->
  nth_error mask t = Some true /\
  forall j, j < t -> nth_error mask j = Some false.
Proof.
  intros H. apply where_from_head in H as (_ & Hnth & Hbefore).
  rewrite Nat.sub_0_r in *. split; assumption.
Qed.

Lemma np_where_nil (mask : list bool) :
  Np.np_where mask = [] -> forall j, nth_error mask j <> Some true.
Proof.
  intros H j Hj. apply where_from_nil in H.
  apply nth_error_In in Hj. rewrite Forall_forall in H.
  apply H in Hj. discriminate.
Qed.

Lemma nth_error_map_true {A : Type} (f : A -> bool) (l : list A) (k : nat) (b : bool) :
  nth_error (map f l) k = Some b ->
  exists x, nth_error l k = Some x /\ f x = b.
Proof.
  rewrite nth_error_map. destruct (nth_error l k) as [x|]; simpl; intros H.
  - exists x. split; congruence.
  - discriminate.
Qed.

(** ** Trigger detection *)

Import ParameterSearch.

(** With one channel, the first position reported is the first sample
    strictly above the threshold. *)
Lemma single_channel_earliest (arrays : list Q) (parameters : Q) (t : nat) (r : list nat) :
  triggered_check (SingleChannel arrays parameters) = Ok (t :: r) ->
  single_condition arrays parameters t /\
  forall j, j < t -> ~ single_condition arrays parameters j.
Proof.
  simpl. intros H. injection H as H.
  apply np_where_head in H as (Hat & Hbefore). split.
  - apply nth_error_map_true in Hat as (x & Hx & Hgt).
    exists x. split; [exact Hx | apply Qgtb_lt, Hgt].
  - intros j Hj (y & Hy & Hlt).
    apply Hbefore in Hj. apply nth_error_map_true in Hj as (x & Hx & Hgt).
    rewrite Hx in Hy. injection Hy as ->.
    apply Qgtb_lt in Hlt. congruence.
Qed.

Lemma single_channel_none (arrays : list Q) (parameters : Q) :
  triggered_check (SingleChannel arrays parameters) = Ok [] ->
  forall k, ~ single_condition arrays parameters k.
Proof.
  simpl. intros H k (x & Hx & Hlt). injection H as H.
  apply (np_where_nil _ H k).
  rewrite nth_error_map, Hx. simpl. f_equal. apply Qgtb_lt, Hlt.
Qed.

Lemma set_column_new (df : Pd.frame) (p : Q) (col : list bool) :
  forallb (fun c => negb (Qeq_bool (fst c) p)) df = true ->
  Pd.set_column df p col = df ++ [(p, col)].
Proof.
  induction df as [|[q c] rest IH]; simpl; intros H; [reflexivity|].
  apply andb_true_iff in H as (Hq & Hrest).
  apply negb_true_iff in Hq. rewrite Hq, IH by assumption. reflexivity.
Qed.

Lemma distinct_middle (l1 l2 : list Q) (p : Q) :
  distinct (l1 ++ p :: l2) = true ->
  forallb (fun q => negb (Qeq_bool q p)) l1 = true.
Proof.
  induction l1 as [|q l1 IH]; simpl; intros H; [reflexivity|].
  apply andb_true_iff in H as (Hq & Hrest).
  rewrite forallb_app in Hq. apply andb_true_iff in Hq as (_ & Hq).
  simpl in Hq. apply andb_true_iff in Hq as (Hq & _).
  rewrite Hq. simpl. apply IH, Hrest.
Qed.

(** When no threshold repeats, every pair keeps its own column. *)
Lemma fill_frame_distinct (pairs : list (list Q * Q)) :
  forall df0 df,
    fill_frame df0 pairs = Ok df ->
    distinct (map fst df0 ++ map snd pairs) = true ->
    df = df0 ++ map column_of pairs.
Proof.
  induction pairs as [|[arr p] rest IH]; intros df0 df H Hd; simpl in H.
  - injection H as <-. simpl. now rewrite app_nil_r.
  - simpl in Hd. pose proof (distinct_middle _ _ _ Hd) as Hnew.
    assert (Hset : forall col df', Pd.setitem df0 p col = Ok df' ->
                                   df' = df0 ++ [(p, col)]).
    { intros col df'. unfold Pd.setitem. destruct df0 as [|c0 df0'].
      - intros E. injection E as <-. reflexivity.
      - destruct (_ =? _).
        + intros E. injection E as <-.
          apply (set_column_new (c0 :: df0') p col).
          clear -Hnew. revert Hnew. generalize (c0 :: df0').
          induction l as [|c l IHl]; simpl; [reflexivity|].
          intros H. apply andb_true_iff in H as (-> & H). now apply IHl.
        + destruct (_ =? _); discriminate. }
    destruct (Pd.setitem df0 p _) as [df'|e] eqn:E; simpl in H; [|discriminate].
    apply Hset in E. subst df'. apply IH in H.
    + rewrite H, <- app_assoc. reflexivity.
    + rewrite map_app, <- app_assoc. exact Hd.
Qed.

Lemma all_rows_true (df : Pd.frame) (k : nat) :
  nth_error (Pd.all_rows df) k = Some true ->
  forall c, In c df -> nth k (snd c) false = true.
Proof.
  unfold Pd.all_rows. intros H.
  apply nth_error_map_true in H as (j & Hj & Hall).
  assert (j = k) as ->.
  { pose proof (nth_error_Some (seq 0 (Pd.index_len df)) k) as Hlen.
    rewrite length_seq in Hlen.
    assert (Hk : k < Pd.index_len df) by (apply Hlen; congruence).
    rewrite nth_error_nth' with (d := 0) in Hj by (rewrite length_seq; exact Hk).
    rewrite seq_nth in Hj by exact Hk. injection Hj as <-. reflexivity. }
  rewrite forallb_forall in Hall. exact Hall.
Qed.

Lemma all_rows_false (df : Pd.frame) (k : nat) :
  nth_error (Pd.all_rows df) k = Some false ->
  exists c, In c df /\ nth k (snd c) false = false.
Proof.
  unfold Pd.all_rows. intros H.
  apply nth_error_map_true in H as (j & Hj & Hall).
  assert (j = k) as ->.
  { pose proof (nth_error_Some (seq 0 (Pd.index_len df)) k) as Hlen.
    rewrite length_seq in Hlen.
    assert (Hk : k < Pd.index_len df) by (apply Hlen; congruence).
    rewrite nth_error_nth' with (d := 0) in Hj by (rewrite length_seq; exact Hk).
    rewrite seq_nth in Hj by exact Hk. injection Hj as <-. reflexivity. }
  apply not_true_iff_false in Hall.
  destruct (existsb (fun c => negb (nth k (snd c) false)) df) eqn:E.
  - apply existsb_exists in E as (c & Hc & Hneg).
    exists c. split; [exact Hc | now apply negb_true_iff].
  - exfalso. apply Hall. apply forallb_forall. intros c Hc.
    destruct (nth k (snd c) false) eqn:Hn; [reflexivity|].
    assert (existsb (fun c => negb (nth k (snd c) false)) df = true).
    { apply existsb_exists. exists c. rewrite Hn. auto. }
    congruence.
Qed.

Lemma nth_map_geb (arr : list Q) (p : Q) (k : nat) :
  nth k (map (fun x => Qgeb x p) arr) false = true <->
  exists x, nth_error arr k = Some x /\ (p <= x)%Q.
Proof.
  revert k. induction arr as [|a arr IH]; intros [|k]; simpl.
  - split; [discriminate | intros (x & Hx & _); discriminate].
  - split; [discriminate | intros (x & Hx & _); discriminate].
  - rewrite Qgeb_le. split.
    + intros H. exists a. auto.
    + intros (x & Hx & Hle). injection Hx as <-. exact Hle.
  - apply IH.
Qed.

(** With several channels whose thresholds are pairwise different, the
    first position reported is the first one where every paired series is at
    or above its threshold. *)
Lemma multi_channel_earliest (arrays : list (list Q)) (parameters : list Q)
  (t : nat) (r : list nat) :
  distinct (map snd (combine arrays parameters)) = true ->
  triggered_check (MultiChannel arrays parameters) = Ok (t :: r) ->
  multi_condition arrays parameters t /\
  forall j, j < t -> ~ multi_condition arrays parameters j.
Proof.
  intros Hd H. simpl in H.
  destruct (fill_frame [] (combine arrays parameters)) as [df|e] eqn:E;
    simpl in H; [|discriminate].
  injection H as H. apply fill_frame_distinct in E; [|exact Hd].
  simpl in E. subst df.
  apply np_where_head in H as (Hat & Hbefore). split.
  - intros arr p Hin. apply nth_map_geb.
    apply (all_rows_true _ _ Hat (column_of (arr, p))).
    apply in_map, Hin.
  - intros j Hj Hcond. apply Hbefore in Hj.
    apply all_rows_false in Hj as (c & Hc & Hn).
    apply in_map_iff in Hc as ([arr p] & <- & Hin).
    apply Hcond in Hin. apply nth_map_geb in Hin.
    simpl in Hn. congruence.
Qed.

Lemma triggered_iff (s s' : self) (inp : trigger_input) :
  flareloop_check_if_value_surpassed s inp = Ok s' ->
  (triggered_bool s' = true <->
   exists t r, triggered_check inp = Ok (t :: r) /\ trigger_index s' = t) /\
  (triggered_bool s' = false <-> triggered_check inp = Ok []).
Proof.
  unfold flareloop_check_if_value_surpassed.
  destruct (triggered_check inp) as [[|t r]|e]; simpl; intros H;
    [injection H as <- | injection H as <- | discriminate]; simpl.
  - split; split; try discriminate; auto.
    intros (t & r & E & _). discriminate.
  - split; split; try discriminate; auto.
    intros _. exists t, r. auto.
Qed.

(** ** Slices, maxima and means *)

Lemma slice_length {A : Type} (l : list A) (a b : nat) :
  length (slice l a b) = Nat.min (b - a) (length l - a).
Proof. unfold slice. now rewrite length_firstn, length_skipn. Qed.

Lemma slice_nil_iff {A : Type} (l : list A) (a b : nat) :
  slice l a b = [] <-> b <= a \/ length l <= a.
Proof.
  rewrite <- length_zero_iff_nil, slice_length. lia.
Qed.

Lemma Qmax_cases (x y : Q) : Qmax x y = x \/ Qmax x y = y.
Proof.
  unfold Qmax, GenericMinMax.gmax. destruct (x ?= y)%Q; auto.
Qed.

Lemma fold_Qmax_in (r : list Q) :
  forall x, fold_left Qmax r x = x \/ In (fold_left Qmax r x) r.
Proof.
  induction r as [|y r IH]; intros x; simpl; [now left|].
  destruct (IH (Qmax x y)) as [E|Hin].
  - rewrite E. destruct (Qmax_cases x y) as [-> | ->]; auto.
  - auto.
Qed.

Lemma fold_Qmax_upper (r : list Q) :
  forall x, (x <= fold_left Qmax r x)%Q /\
            forall y, In y r -> (y <= fold_left Qmax r x)%Q.
Proof.
  induction r as [|z r IH]; intros x; simpl.
  - split; [apply Qle_refl | contradiction].
  - destruct (IH (Qmax x z)) as (Hx & Hr). split.
    + eapply Qle_trans; [apply Q.le_max_l | exact Hx].
    + intros y [<- | Hy].
      * eapply Qle_trans; [apply Q.le_max_r | exact Hx].
      * apply Hr, Hy.
Qed.

(** [np.max] returns an element of the array that no element exceeds. *)
Lemma np_max_is_maximum (l : list Q) (m : Q) :
  Np.max l = Ok m -> In m l /\ forall y, In y l -> (y <= m)%Q.
Proof.
  destruct l as [|x r]; simpl; [discriminate|].
  intros H. injection H as <-. split.
  - destruct (fold_Qmax_in r x) as [-> | Hin]; auto.
  - destruct (fold_Qmax_upper r x) as (Hx & Hr).
    intros y [<- | Hy]; auto.
Qed.

Lemma np_max_nonempty (l : list Q) :
  l <> [] -> exists m, Np.max l = Ok m.
Proof. destruct l as [|x r]; [congruence | simpl; eauto]. Qed.

(** The loop of [np.add.reduce] computes the sum in double precision. *)
Lemma np_sum_rounded (l : list Q) : rounded_sum l (Np.sum l).
Proof.
  induction l as [|x l IH] using rev_ind.
  - constructor.
  - unfold Np.sum. rewrite fold_left_app. simpl.
    constructor. exact IH.
Qed.

Lemma rounded_sum_unique (l : list Q) (t : Q) :
  rounded_sum l t -> t = Np.sum l.
Proof.
  induction 1 as [|w t x _ IH]; [reflexivity|].
  unfold Np.sum. rewrite fold_left_app. simpl. fold (Np.sum w).
  now rewrite IH.
Qed.

(** [np.mean] returns the mean in double precision, and nothing else is. *)
Lemma np_mean_rounded (l : list Q) (a : Q) :
  is_rounded_mean a l <-> a = Np.mean l.
Proof.
  unfold is_rounded_mean, Np.mean. split.
  - intros (t & Ht & ->). now rewrite (rounded_sum_unique _ _ Ht).
  - intros ->. exists (Np.sum l). split; [apply np_sum_rounded | reflexivity].
Qed.

(** The rounding at work: the double nearest to one tenth, to four thirds,
    a tie in the last place that goes to the even significand, and a tie
    below the least positive double. *)
Example round64_values :
  (Np.round64 (1 # 10) == 3602879701896397 # 36028797018963968)%Q /\
  (Np.round64 (4 # 3) == 6004799503160661 # 4503599627370496)%Q /\
  (Np.round64 (inject_Z (2 ^ 53 + 1)) == inject_Z (2 ^ 53))%Q /\
  (Np.round64 (inject_Z (2 ^ 53 + 3)) == inject_Z (2 ^ 53 + 4))%Q /\
  (Np.round64 (-3 # 4) == -3 # 4)%Q /\
  (Np.round64 (1 # 2 ^ 1075) == 0)%Q /\
  (Np.round64 (3 # 2 ^ 1075) == 1 # 2 ^ 1073)%Q /\
  Np.is_float64 (1 # 10) = false /\
  Np.is_float64 (inject_Z (2 ^ 53 + 1)) = false /\
  Np.is_float64 (inject_Z (2 ^ 1024)) = false /\
  Np.is_float64 (inject_Z (2 ^ 1024 - 2 ^ 971)) = true.
Proof. vm_compute. repeat split. Qed.

(** [np.mean] of three times the double nearest to 0.1: the sum is the
    double 0.30000000000000004 and the mean the double 0.10000000000000002,
    one place above the samples. *)
Example np_mean_values :
  let tenth := Np.round64 (1 # 10) in
  (Np.sum [tenth; tenth; tenth] == 1351079888211149 # 4503599627370496)%Q /\
  (Np.mean [tenth; tenth; tenth] == 7205759403792795 # 72057594037927936)%Q /\
  (tenth < Np.mean [tenth; tenth; tenth])%Q /\
  (Np.mean [1; 1; 2] == 6004799503160661 # 4503599627370496)%Q /\
  (Np.mean [6; 5; 4] == 5)%Q /\
  Np.in_range [tenth; tenth; tenth] = true /\
  Np.in_range [inject_Z (2 ^ 1023); inject_Z (2 ^ 1023)] = false.
Proof. vm_compute. repeat split. Qed.

(** ** One flare: window, peak and cancellation *)

Lemma Qltb_sub (a b : Q) : Qltb (a - b) 0 = Qltb a b.
Proof.
  apply eq_true_iff_eq. rewrite !Qltb_lt. split; intros H; lra.
Qed.

Lemma getitem_Ok {A : Type} (l : list A) (k : nat) (a : A) :
  getitem l k = Ok a <-> nth_error l k = Some a.
Proof.
  unfold getitem. destruct (nth_error l k); split; congruence.
Qed.

Lemma getitem_in_range {A : Type} (l : list A) (k : nat) :
  k < length l -> exists a, getitem l k = Ok a.
Proof.
  intros H. apply nth_error_Some in H. unfold getitem.
  destruct (nth_error l k); [eauto | congruence].
Qed.

Lemma getitem_out_of_range {A : Type} (l : list A) (k : nat) :
  length l <= k -> getitem l k = @Raise A IndexError.
Proof.
  intros H. apply nth_error_None in H. unfold getitem. now rewrite H.
Qed.

(** The cancellation flag is [nan] exactly when the look-ahead sample is
    missing, and otherwise compares the two samples. *)
Lemma cancellation_cases (fl : flare) (s : self) :
  (length (xrsa fl) <= trigger_index s + 3 /\ cancellation fl s = Ok Nan) \/
  (trigger_index s + 3 < length (xrsa fl) /\
   exists later at_trigger,
     nth_error (xrsa fl) (trigger_index s + 3) = Some later /\
     nth_error (xrsa fl) (trigger_index s) = Some at_trigger /\
     cancellation fl s = Ok (Boolean (Qltb later at_trigger))).
Proof.
  unfold cancellation.
  destruct (trigger_index s + 3 <? length (xrsa fl)) eqn:E.
  - apply Nat.ltb_lt in E. right. split; [exact E|].
    destruct (getitem_in_range (xrsa fl) (trigger_index s + 3)) as (a & Ha);
      [exact E|].
    destruct (getitem_in_range (xrsa fl) (trigger_index s)) as (b & Hb);
      [lia|].
    exists a, b. rewrite Ha, Hb. simpl. rewrite Qltb_sub.
    repeat split; try reflexivity; now apply getitem_Ok.
  - apply Nat.ltb_ge in E. left. split; [exact E | reflexivity].
Qed.

(** What a successful call of
    [calculate_observed_xrsb_and_cancellation] did. *)
Lemma calculate_inv (data : list flare) (s s' : self) (i : nat) :
  calculate_observed_xrsb_and_cancellation data s i = Ok s' ->
  exists fl l,
    nth_error data i = Some fl /\
    calculated_flarelist s' = calculated_flarelist s ++ [l] /\
    Flare_Number l = i /\ Flare_ID l = flare_ID fl /\
    observed fl s = Ok (Max_HiC l, Mean_HiC l, Peak_Observed l) /\
    nth_error (time fl) (trigger_index s) = Some (Trigger_Time l) /\
    cancellation fl s = Ok (Cancelled l).
Proof.
  unfold calculate_observed_xrsb_and_cancellation. intros H.
  destruct (getitem data i) as [fl|] eqn:Efl; simpl in H; [|discriminate].
  destruct (observed fl s) as [[[mx mn] pk]|] eqn:Eobs; simpl in H;
    [|discriminate].
  destruct (getitem (time fl) (trigger_index s)) as [tt|] eqn:Ett;
    simpl in H; [|discriminate].
  destruct (cancellation fl s) as [cb|] eqn:Ecb; simpl in H; [|discriminate].
  injection H as <-. simpl.
  apply getitem_Ok in Efl, Ett.
  eexists fl, _. repeat split; simpl; try reflexivity; assumption.
Qed.

Lemma observed_cases (fl : flare) (s : self) :
  (window fl s = [] /\ observed fl s = Ok (Nan, Nan, Nan)) \/
  (window fl s <> [] /\
   exists m, Np.max (window fl s) = Ok m /\
     observed fl s =
       (peak_bool <- peak_observed fl s ;;
        Ok (Float m, Float (Np.mean (window fl s)), Boolean peak_bool))).
Proof.
  unfold observed. fold (window fl s).
  destruct (window fl s) as [|x r] eqn:E.
  - left. split; reflexivity.
  - right. split; [discriminate|]. simpl. eexists. split; reflexivity.
Qed.

Lemma peak_observed_Ok (fl : flare) (s : self) (b : bool) :
  peak_observed fl s = Ok b <->
  exists t14 t_start,
    nth_error (time fl) 14 = Some t14 /\
    nth_error (time fl) (hic_obs_start s) = Some t_start /\
    b = Qltb t14 t_start && Qltb t_start (peak_time fl).
Proof.
  unfold peak_observed. split.
  - intros H.
    destruct (getitem (time fl) 14) as [t14|] eqn:E14; [|discriminate].
    destruct (getitem (time fl) (hic_obs_start s)) as [ts|] eqn:Es;
      [|discriminate].
    injection H as <-. apply getitem_Ok in E14, Es. exists t14, ts.
    repeat split; assumption.
  - intros (t14 & ts & H14 & Hs & ->).
    apply getitem_Ok in H14, Hs. rewrite H14, Hs. reflexivity.
Qed.

(** ** Claims on trigger detection *)

(** C1.  The claim: a reported trigger index is the earliest index at which
    the condition holds, the condition of a multi-channel run being that every
    paired series is at or above its threshold.  The program keys the columns
    of its truth table by the threshold value, so of two pairs with the same
    threshold only the later one is tested: with the series [[0, 0]] and
    [[5, 5]] both against the threshold [1] the program triggers at index 0,
    where the first series is below its threshold.  (Lemmas
    [single_channel_earliest] and [multi_channel_earliest] show the claim for
    one channel and for pairwise different thresholds.) *)
Theorem trigger_ignores_channel_with_repeated_threshold :
  let arrays := [[0; 0]; [5; 5]]%Q in
  let parameters := [1; 1]%Q in
  exists s',
    flareloop_check_if_value_surpassed fresh (MultiChannel arrays parameters)
      = Ok s' /\
    triggered_bool s' = true /\
    trigger_index s' = 0 /\
    ~ condition (MultiChannel arrays parameters) (trigger_index s').
Proof.
  intros arrays parameters. eexists. split; [reflexivity|].
  repeat split. simpl. intros H.
  destruct (H [0; 0]%Q 1%Q) as (x & Hx & Hle); [left; reflexivity|].
  simpl in Hx. injection Hx as <-. apply Hle. reflexivity.
Qed.

(** C2.  Whenever a trigger is reported at index [t], the observation window
    starts at [t + 9] and ends (exclusive) at [t + 15]: the start is 9 past
    the trigger and the window is 6 long. *)
Theorem observation_window_bounds (s s' : self) (inp : trigger_input) :
  flareloop_check_if_value_surpassed s inp = Ok s' ->
  triggered_bool s' = true ->
  hic_obs_start s' = trigger_index s' + 9 /\
  hic_obs_end s' = trigger_index s' + 15 /\
  hic_obs_start s' - trigger_index s' = 9 /\
  hic_obs_end s' - hic_obs_start s' = 6.
Proof.
  unfold flareloop_check_if_value_surpassed.
  destruct (triggered_check inp) as [[|t r]|e]; simpl; intros H Ht;
    [injection H as <- | injection H as <- | discriminate]; simpl in *.
  - discriminate.
  - lia.
Qed.

Lemma observation_window_bounds_witness :
  flareloop_check_if_value_surpassed fresh (Sample.xrsb_above_1 Sample.late)
    = Ok (Sample.triggered_at 10) /\
  triggered_bool (Sample.triggered_at 10) = true /\
  hic_obs_start (Sample.triggered_at 10) = 19 /\
  hic_obs_end (Sample.triggered_at 10) = 25.
Proof.
  assert (H : flareloop_check_if_value_surpassed fresh
                (Sample.xrsb_above_1 Sample.late)
              = Ok (Sample.triggered_at 10)) by reflexivity.
  split; [exact H|]. split; [reflexivity|].
  destruct (observation_window_bounds _ _ _ H eq_refl) as (Hs & He & _).
  split; [exact Hs | exact He].
Defined.

(** ** When the per-flare step returns *)

Lemma cancellation_total (fl : flare) (s : self) :
  exists c, cancellation fl s = Ok c.
Proof.
  destruct (cancellation_cases fl s) as [(_ & H) | (_ & a & b & _ & _ & H)];
    eauto.
Qed.

(** The step returns as soon as the trigger index is a position of [time]
    and, for a non-empty window, so are 14 and the window start. *)
Lemma calculate_returns (data : list flare) (s : self) (i : nat) (fl : flare) :
  nth_error data i = Some fl ->
  trigger_index s < length (time fl) ->
  (window fl s <> [] ->
   14 < length (time fl) /\ hic_obs_start s < length (time fl)) ->
  exists s', calculate_observed_xrsb_and_cancellation data s i = Ok s'.
Proof.
  intros Hfl Ht Hw. unfold calculate_observed_xrsb_and_cancellation.
  apply getitem_Ok in Hfl. rewrite Hfl. simpl.
  destruct (getitem_in_range _ _ Ht) as (tt & Ett).
  destruct (cancellation_total fl s) as (c & Ec).
  destruct (observed_cases fl s) as [(_ & ->) | (Hne & m & _ & ->)].
  - simpl. rewrite Ett, Ec. simpl. eauto.
  - destruct (Hw Hne) as (H14 & Hs).
    destruct (getitem_in_range _ _ H14) as (t14 & E14).
    destruct (getitem_in_range _ _ Hs) as (ts & Es).
    unfold peak_observed. rewrite E14, Es. simpl.
    rewrite Ett, Ec. simpl. eauto.
Qed.

(** With a non-empty window and fewer than 15 timestamps the step raises
    [IndexError]. *)
Lemma calculate_raises (data : list flare) (s : self) (i : nat) (fl : flare) :
  nth_error data i = Some fl ->
  window fl s <> [] ->
  length (time fl) <= 14 ->
  calculate_observed_xrsb_and_cancellation data s i = Raise IndexError.
Proof.
  intros Hfl Hne H14. unfold calculate_observed_xrsb_and_cancellation.
  apply getitem_Ok in Hfl. rewrite Hfl. simpl.
  destruct (observed_cases fl s) as [(Hnil & _) | (_ & m & _ & ->)];
    [contradiction|].
  unfold peak_observed. rewrite (getitem_out_of_range _ _ H14). reflexivity.
Qed.

(** Under the same conditions, the entry that the step appends. *)
Lemma calculate_entry (data : list flare) (s : self) (i : nat) (fl : flare) :
  nth_error data i = Some fl ->
  trigger_index s < length (time fl) ->
  (window fl s <> [] ->
   14 < length (time fl) /\ hic_obs_start s < length (time fl)) ->
  exists s' l,
    calculate_observed_xrsb_and_cancellation data s i = Ok s' /\
    calculated_flarelist s' = calculated_flarelist s ++ [l] /\
    observed fl s = Ok (Max_HiC l, Mean_HiC l, Peak_Observed l) /\
    cancellation fl s = Ok (Cancelled l).
Proof.
  intros Hfl Ht Hw.
  destruct (calculate_returns data s i fl Hfl Ht Hw) as (s' & Hs').
  destruct (calculate_inv _ _ _ _ Hs')
    as (fl' & l & Hfl' & Hlist & _ & _ & Hobs & _ & Hc).
  assert (fl' = fl) as -> by congruence.
  exists s', l. auto.
Qed.

Lemma entry_computed (fl : flare) (s : self) (l : launch) :
  observed fl s = Ok (Max_HiC l, Mean_HiC l, Peak_Observed l) ->
  observation_computed (window fl s) l.
Proof.
  intros H. unfold observation_computed.
  destruct (observed_cases fl s) as [(Hnil & E) | (Hne & m & Hm & E)];
    rewrite E in H.
  - injection H as Hmax Hmean Hpeak. split; [auto | contradiction].
  - destruct (peak_observed fl s) as [b|]; simpl in H; [|discriminate].
    injection H as Hmax Hmean Hpeak. split; [contradiction|].
    intros _. exists m, (Np.mean (window fl s)).
    split; [auto|]. split; [auto|].
    split; [apply (np_max_is_maximum _ _ Hm) | now apply np_mean_rounded].
Qed.

(** The flag that the cancellation block computes. *)
Lemma cancellation_would_cancel (fl : flare) (s : self) (c : pyval) :
  cancellation fl s = Ok c ->
  would_cancel (xrsa fl) (trigger_index s) c.
Proof.
  intros Hc.
  destruct (cancellation_cases fl s)
    as [(Hlen & Hn) | (Hlt & a & b & Ha & Hb & Hab)].
  - assert (c = Nan) as -> by congruence. split.
    + split; auto.
    + intros Hlt. lia.
  - assert (c = Boolean (Qltb a b)) as -> by congruence. split.
    + split; [discriminate | lia].
    + intros _. exists a, b. split; [exact Ha|]. split; [exact Hb|].
      exists (Qltb a b). split; [reflexivity | apply Qltb_lt].
Qed.

(** ** Claims on one triggered flare *)

(** C3.  For a trigger at any index of any flare, the cancellation block
    does not raise, and its outcome is [nan] if and only if
    [trigger_index + 3] is past the end of [xrsa]; otherwise it is a boolean,
    true if and only if [xrsa[trigger_index + 3]] is strictly smaller than
    [xrsa[trigger_index]].  That outcome is the cancellation flag of the entry
    that the per-flare step appends, and the step does append one as soon as
    the trigger index is a position of [time] and, for a non-empty window, so
    are 14 and the window start. *)
Theorem cancellation_outcome (data : list flare) (s : self) (i : nat)
  (fl : flare) :
  nth_error data i = Some fl ->
  exists c,
    cancellation fl s = Ok c /\
    would_cancel (xrsa fl) (trigger_index s) c /\
    (forall s',
       calculate_observed_xrsb_and_cancellation data s i = Ok s' ->
       exists l,
         calculated_flarelist s' = calculated_flarelist s ++ [l] /\
         Cancelled l = c) /\
    (trigger_index s < length (time fl) ->
     (window fl s <> [] ->
      14 < length (time fl) /\ hic_obs_start s < length (time fl)) ->
     exists s' l,
       calculate_observed_xrsb_and_cancellation data s i = Ok s' /\
       calculated_flarelist s' = calculated_flarelist s ++ [l] /\
       Cancelled l = c).
Proof.
  intros Hfl.
  destruct (cancellation_total fl s) as (c & Hc). exists c.
  split; [exact Hc|]. split; [apply cancellation_would_cancel, Hc|]. split.
  - intros s' H. apply calculate_inv in H
      as (fl' & l & Hfl' & Hlist & _ & _ & _ & _ & Hcl).
    assert (fl' = fl) as -> by congruence.
    exists l. split; [exact Hlist | congruence].
  - intros Ht Hw.
    destruct (calculate_entry data s i fl Hfl Ht Hw)
      as (s' & l & Hs' & Hlist & _ & Hcl).
    exists s', l. split; [exact Hs'|]. split; [exact Hlist | congruence].
Qed.

(** Three triggers: on [Sample.brief] above the threshold 8, where [xrsa]
    falls from 5 to 2 and the launch is cancelled; on [Sample.late], where
    [xrsa] stays at 3 and it is not; on [Sample.ending], where the sample
    three places after the trigger is the first one missing. *)
Lemma cancellation_outcome_witness :
  (flareloop_check_if_value_surpassed fresh
     (SingleChannel (xrsb Sample.brief) 8%Q) = Ok (Sample.triggered_at 20) /\
   nth_error (xrsa Sample.brief) 20 = Some 5%Q /\
   nth_error (xrsa Sample.brief) 23 = Some 2%Q /\
   exists s' l,
     calculate_observed_xrsb_and_cancellation
       [Sample.brief] (Sample.triggered_at 20) 0 = Ok s' /\
     calculated_flarelist s' = [] ++ [l] /\
     Cancelled l = Boolean true) /\
  (flareloop_check_if_value_surpassed fresh
     (Sample.xrsb_above_1 Sample.late) = Ok (Sample.triggered_at 10) /\
   nth_error (xrsa Sample.late) 10 = Some 3%Q /\
   nth_error (xrsa Sample.late) 13 = Some 3%Q /\
   exists s' l,
     calculate_observed_xrsb_and_cancellation
       [Sample.late] (Sample.triggered_at 10) 0 = Ok s' /\
     calculated_flarelist s' = [] ++ [l] /\
     Cancelled l = Boolean false) /\
  (flareloop_check_if_value_surpassed fresh
     (Sample.xrsb_above_1 Sample.ending) = Ok (Sample.triggered_at 7) /\
   length (xrsa Sample.ending) = 7 + 3 /\
   exists s' l,
     calculate_observed_xrsb_and_cancellation
       [Sample.ending] (Sample.triggered_at 7) 0 = Ok s' /\
     calculated_flarelist s' = [] ++ [l] /\
     Cancelled l = Nan).
Proof.
  split; [|split].
  - split; [reflexivity|]. split; [reflexivity|]. split; [reflexivity|].
    destruct (cancellation_outcome [Sample.brief] (Sample.triggered_at 20) 0
                Sample.brief eq_refl)
      as (c & _ & (_ & Hbool) & _ & Hret).
    destruct Hret as (s' & l & Hs' & Hl & Hc);
      [vm_compute; lia | intros _; vm_compute; lia |].
    exists s', l. split; [exact Hs'|]. split; [exact Hl|]. rewrite Hc.
    destruct Hbool as (later & at_trigger & H1 & H2 & b & Hb & Hiff);
      [vm_compute; lia|].
    vm_compute in H1, H2. injection H1 as <-. injection H2 as <-.
    rewrite Hb. f_equal. apply Hiff. reflexivity.
  - split; [reflexivity|]. split; [reflexivity|]. split; [reflexivity|].
    destruct (cancellation_outcome [Sample.late] (Sample.triggered_at 10) 0
                Sample.late eq_refl)
      as (c & _ & (_ & Hbool) & _ & Hret).
    destruct Hret as (s' & l & Hs' & Hl & Hc);
      [vm_compute; lia | intros _; vm_compute; lia |].
    exists s', l. split; [exact Hs'|]. split; [exact Hl|]. rewrite Hc.
    destruct Hbool as (later & at_trigger & H1 & H2 & b & Hb & Hiff);
      [vm_compute; lia|].
    vm_compute in H1, H2. injection H1 as <-. injection H2 as <-.
    rewrite Hb. f_equal. destruct b; [|reflexivity].
    exfalso. assert (H : (3 < 3)%Q) by (apply Hiff; reflexivity).
    revert H. unfold Qlt. simpl. lia.
  - split; [reflexivity|]. split; [reflexivity|].
    destruct (cancellation_outcome [Sample.ending] (Sample.triggered_at 7) 0
                Sample.ending eq_refl)
      as (c & _ & (Hnan & _) & _ & Hret).
    destruct Hret as (s' & l & Hs' & Hl & Hc);
      [vm_compute; lia | intros Hw; exfalso; apply Hw; reflexivity |].
    exists s', l. split; [exact Hs'|]. split; [exact Hl|]. rewrite Hc.
    apply Hnan. vm_compute. lia.
Defined.

(** C4, as the program has it.  The window is the six places from
    [hic_obs_start] on.  When the trigger index is a position of [time] and,
    for a non-empty window, so are 14 and the window start, the per-flare step
    appends an entry.  If the slice [xrsb[hic_obs_start:hic_obs_end]] is
    empty, the observed maximum, the observed mean and the peak flag of the
    entry are all [nan].  Otherwise, the samples of the slice being doubles
    whose sums stay in range, the observed maximum is the maximum of the slice
    and the observed mean is its mean in double precision: the samples added
    in order, the sum divided by their number, every result rounded to the
    nearest double. *)
Theorem observation_of_window (data : list flare) (s : self) (i : nat)
  (fl : flare) :
  nth_error data i = Some fl ->
  hic_obs_end s = hic_obs_start s + 6 ->
  trigger_index s < length (time fl) ->
  (window fl s <> [] ->
   14 < length (time fl) /\ hic_obs_start s < length (time fl)) ->
  forallb Np.is_float64 (window fl s) = true ->
  Np.in_range (window fl s) = true ->
  exists s' l,
    calculate_observed_xrsb_and_cancellation data s i = Ok s' /\
    calculated_flarelist s' = calculated_flarelist s ++ [l] /\
    observation_computed (window fl s) l.
Proof.
  intros Hfl _ Ht Hw _ _.
  destruct (calculate_entry data s i fl Hfl Ht Hw)
    as (s' & l & Hs' & Hlist & Hobs & _).
  exists s', l. split; [exact Hs'|]. split; [exact Hlist|].
  apply entry_computed, Hobs.
Qed.

(** A window of six samples whose mean is rounded, and an empty window. *)
Lemma observation_of_window_witness :
  (flareloop_check_if_value_surpassed fresh
     (Sample.xrsb_above_1 Sample.uneven) = Ok (Sample.triggered_at 10) /\
   window Sample.uneven (Sample.triggered_at 10) = [1; 1; 2; 1; 1; 2]%Q /\
   exists s' l a,
     calculate_observed_xrsb_and_cancellation
       [Sample.uneven] (Sample.triggered_at 10) 0 = Ok s' /\
     calculated_flarelist s' = [] ++ [l] /\
     Max_HiC l = Float 2 /\
     Mean_HiC l = Float a /\
     (a == 6004799503160661 # 4503599627370496)%Q /\
     observation_computed [1; 1; 2; 1; 1; 2]%Q l) /\
  (flareloop_check_if_value_surpassed fresh
     (Sample.xrsb_above_1 Sample.trailing) = Ok (Sample.triggered_at 8) /\
   window Sample.trailing (Sample.triggered_at 8) = [] /\
   exists s' l,
     calculate_observed_xrsb_and_cancellation
       [Sample.trailing] (Sample.triggered_at 8) 0 = Ok s' /\
     calculated_flarelist s' = [] ++ [l] /\
     Max_HiC l = Nan /\ Mean_HiC l = Nan /\ Peak_Observed l = Nan).
Proof.
  split.
  - split; [reflexivity|]. split; [reflexivity|].
    destruct (observation_of_window [Sample.uneven] (Sample.triggered_at 10) 0
                Sample.uneven eq_refl eq_refl)
      as (s' & l & Hs' & Hl & Hempty & Hfull);
      [vm_compute; lia | intros _; vm_compute; lia
       | vm_compute; reflexivity | vm_compute; reflexivity |].
    change (window Sample.uneven (Sample.triggered_at 10))
      with [1; 1; 2; 1; 1; 2]%Q in Hempty, Hfull.
    destruct Hfull as (m & a & Hm & Ha & (Hin & Hge) & Hmean); [discriminate|].
    exists s', l, a. split; [exact Hs'|]. split; [exact Hl|].
    split; [|split; [exact Ha | split]].
    + rewrite Hm. f_equal.
      assert (H2 : (2 <= m)%Q) by (apply Hge; simpl; auto).
      simpl in Hin.
      destruct Hin as [<- | [<- | [<- | [<- | [<- | [<- | []]]]]]];
        try reflexivity; exfalso; revert H2; unfold Qle; simpl; lia.
    + apply np_mean_rounded in Hmean. rewrite Hmean. vm_compute. reflexivity.
    + split; [exact Hempty|]. intros _. exists m, a.
      repeat split; assumption.
  - split; [reflexivity|]. split; [reflexivity|].
    destruct (observation_of_window [Sample.trailing] (Sample.triggered_at 8) 0
                Sample.trailing eq_refl eq_refl)
      as (s' & l & Hs' & Hl & Hempty & _);
      [vm_compute; lia | intros Hw; exfalso; apply Hw; reflexivity
       | reflexivity | reflexivity |].
    exists s', l. split; [exact Hs'|]. split; [exact Hl|].
    apply Hempty. reflexivity.
Defined.

(** C4, as the claim words it, fails on the mean: the flare [Sample.uneven]
    triggers at index 10, its window holds [1, 1, 2, 1, 1, 2], and the
    observed mean is the double 6004799503160661 / 2 ^ 52, which is not the
    arithmetic mean 4/3 of the window: six times it is not 8. *)
Lemma observed_mean_is_not_exact :
  exists s' l a,
    loop_through_flares [Sample.uneven] [Sample.xrsb_above_1 Sample.uneven]
      fresh = Ok s' /\
    calculated_flarelist s' = [l] /\
    window Sample.uneven s' = [1; 1; 2; 1; 1; 2]%Q /\
    Mean_HiC l = Float a /\
    (a == 6004799503160661 # 4503599627370496)%Q /\
    ~ is_mean a (window Sample.uneven s') /\
    ~ observation_outputs (window Sample.uneven s') l.
Proof.
  let r := eval vm_compute in
    (loop_through_flares [Sample.uneven] [Sample.xrsb_above_1 Sample.uneven]
       fresh) in
  match r with
  | Ok ?s1 =>
      exists s1;
      match eval vm_compute in (calculated_flarelist s1) with
      | [?l1] =>
          exists l1;
          match eval vm_compute in (Mean_HiC l1) with
          | Float ?a1 => exists a1
          end
      end
  end.
  split; [vm_compute; reflexivity|]. split; [reflexivity|].
  split; [vm_compute; reflexivity|]. split; [reflexivity|].
  split; [vm_compute; reflexivity|].
  assert (Hnot : forall a : Q,
             (a == 6004799503160661 # 4503599627370496)%Q ->
             ~ is_mean a [1; 1; 2; 1; 1; 2]%Q).
  { intros a Ha. unfold is_mean. rewrite Ha. vm_compute. discriminate. }
  split.
  - apply Hnot. vm_compute. reflexivity.
  - intros (_ & Hfull).
    destruct Hfull as (m & a & _ & Ha & _ & Hmean); [discriminate|].
    revert Hmean. apply Hnot.
    injection Ha as <-. vm_compute. reflexivity.
Qed.

(** C5, as the program has it.  In every entry appended for a non-empty
    window, the peak flag is a boolean, true if and only if the timestamp at
    [hic_obs_start] lies strictly between the timestamp of sample 14 and the
    peak time of the flare: the window opened after the reference sample and
    before the peak. *)
Theorem peak_observed_outcome (data : list flare) (s s' : self) (i : nat) :
  calculate_observed_xrsb_and_cancellation data s i = Ok s' ->
  exists fl l,
    nth_error data i = Some fl /\
    calculated_flarelist s' = calculated_flarelist s ++ [l] /\
    (window fl s <> [] ->
     exists t14 t_start b,
       nth_error (time fl) 14 = Some t14 /\
       nth_error (time fl) (hic_obs_start s) = Some t_start /\
       Peak_Observed l = Boolean b /\
       (b = true <-> strictly_between t14 (peak_time fl) t_start)).
Proof.
  intros H. apply calculate_inv in H
    as (fl & l & Hfl & Hlist & _ & _ & Hobs & _ & _).
  exists fl, l. repeat split; try assumption.
  intros Hne.
  destruct (observed_cases fl s) as [(Hnil & _) | (_ & m & _ & E)];
    [contradiction|].
  rewrite E in Hobs.
  destruct (peak_observed fl s) as [b|] eqn:Ep; simpl in Hobs; [|discriminate].
  injection Hobs as _ _ Hpeak.
  apply peak_observed_Ok in Ep as (t14 & ts & H14 & Hs & Hb).
  exists t14, ts, b.
  split; [exact H14|]. split; [exact Hs|]. split; [now symmetry|].
  subst b. unfold strictly_between.
  rewrite andb_true_iff, !Qltb_lt. reflexivity.
Qed.

Lemma peak_observed_outcome_witness :
  exists s',
    calculate_observed_xrsb_and_cancellation
      [Sample.late] (Sample.triggered_at 10) 0 = Ok s' /\
    exists fl l,
      nth_error [Sample.late] 0 = Some fl /\
      calculated_flarelist s' = [] ++ [l] /\
      (window fl (Sample.triggered_at 10) <> [] ->
       exists t14 t_start b,
         nth_error (time fl) 14 = Some t14 /\
         nth_error (time fl) 19 = Some t_start /\
         Peak_Observed l = Boolean b /\
         (b = true <-> strictly_between t14 (peak_time fl) t_start)).
Proof.
  eexists. split; [reflexivity|].
  apply (peak_observed_outcome [Sample.late] (Sample.triggered_at 10) _ 0).
  reflexivity.
Defined.

(** C5, as the claim words it, fails: for the flare [Sample.late] the window
    opens at 1140 s, after sample 14 (840 s) and before the peak (1500 s), and
    the peak flag is true, although the peak time does not lie between the
    timestamp of sample 14 and the timestamp at [hic_obs_start], in either
    order. *)
Lemma peak_time_not_between_when_observed :
  exists s' l t14 t_start,
    loop_through_flares [Sample.late] [Sample.xrsb_above_1 Sample.late] fresh
      = Ok s' /\
    calculated_flarelist s' = [l] /\
    window Sample.late s' <> [] /\
    nth_error (time Sample.late) 14 = Some t14 /\
    nth_error (time Sample.late) (hic_obs_start s') = Some t_start /\
    Peak_Observed l = Boolean true /\
    ~ strictly_between t14 t_start (peak_time Sample.late) /\
    ~ strictly_between t_start t14 (peak_time Sample.late).
Proof.
  eexists. eexists. eexists. eexists.
  split; [reflexivity|]. split; [reflexivity|].
  split; [discriminate|]. split; [reflexivity|]. split; [reflexivity|].
  split; [reflexivity|].
  split; intros (H1 & H2); revert H1 H2; unfold Qlt; simpl; lia.
Qed.

(** C8.  The claim: the per-flare simulation never raises an out-of-range
    error, whatever the length of the series.  The program guards the window
    slice and the look-ahead sample, but reads [time[14]] unguarded: the
    twelve-sample flare [Sample.short] triggers at index 0, its window
    [[9, 15)] holds three samples, and the step raises [IndexError].
    (Lemma [calculate_returns] shows that the step returns for index-aligned
    series of at least 15 samples.) *)
Theorem short_flare_raises_IndexError :
  flareloop_check_if_value_surpassed fresh (Sample.xrsb_above_1 Sample.short)
    = Ok (Sample.triggered_at 0) /\
  length (time Sample.short) = 12 /\
  length (xrsb Sample.short) = 12 /\
  window Sample.short (Sample.triggered_at 0) = [2; 2; 2]%Q /\
  calculate_observed_xrsb_and_cancellation
    [Sample.short] (Sample.triggered_at 0) 0 = Raise IndexError /\
  loop_through_flares [Sample.short] [Sample.xrsb_above_1 Sample.short] fresh
    = Raise IndexError.
Proof. repeat split. Qed.

(** C10.  The claim: a window that starts inside the series and ends past
    it is sliced to the remainder, and the maximum and the mean of that
    remainder are reported as numbers.  The program slices as the claim says,
    and then reads [time[14]] unguarded: the fourteen-sample flare [Sample.cut]
    triggers at index 3, its window [[12, 18)] holds the last two samples 7
    and 6, and the step raises [IndexError] where the claim has the maximum 7
    and the mean 6.5.  (Theorem [partial_window_reported] shows that the
    numbers are reported for index-aligned series of at least 15 samples.) *)
Theorem partial_window_raises_IndexError :
  flareloop_check_if_value_surpassed fresh (Sample.xrsb_above_1 Sample.cut)
    = Ok (Sample.triggered_at 3) /\
  hic_obs_start (Sample.triggered_at 3) = 12 /\
  hic_obs_end (Sample.triggered_at 3) = 18 /\
  length (xrsb Sample.cut) = 14 /\
  length (time Sample.cut) = 14 /\
  window Sample.cut (Sample.triggered_at 3) = [7; 6]%Q /\
  calculate_observed_xrsb_and_cancellation
    [Sample.cut] (Sample.triggered_at 3) 0 = Raise IndexError /\
  loop_through_flares [Sample.cut] [Sample.xrsb_above_1 Sample.cut] fresh
    = Raise IndexError.
Proof. repeat split. Qed.

(** ** The metadata join *)

Lemma getitem_head {A : Type} (l : list A) (a : A) :
  getitem l 0 = Ok a -> exists r, l = a :: r.
Proof.
  destruct l as [|x r]; unfold getitem; simpl; [discriminate|].
  intros H. injection H as ->. eauto.
Qed.

Lemma launched_flare_first (data : list flare) (id : Z) (k : nat) :
  launched_flare data id = Ok k -> first_match data id k.
Proof.
  unfold launched_flare. intros H.
  apply getitem_head in H as (r & H).
  apply np_where_head in H as (Hat & Hbefore). split.
  - apply nth_error_map_true in Hat as (fl & Hfl & Heq).
    exists fl. split; [exact Hfl|]. apply Z.eqb_eq in Heq. now symmetry.
  - intros j fl Hj Hfl Hid. apply Hbefore in Hj.
    rewrite nth_error_map, Hfl in Hj. simpl in Hj.
    injection Hj as Hj. apply Z.eqb_neq in Hj. congruence.
Qed.

(** A row whose identifier occurs in the archive finds its record. *)
Lemma launched_flare_found (data : list flare) (id : Z) (fl : flare) :
  In fl data -> flare_ID fl = id -> exists k, launched_flare data id = Ok k.
Proof.
  intros Hin Hid. unfold launched_flare.
  destruct (Np.np_where (map (fun fl => Z.eqb id (flare_ID fl)) data))
    as [|k r] eqn:E.
  - exfalso. apply In_nth_error in Hin as (j & Hj).
    apply (np_where_nil _ E j). rewrite nth_error_map, Hj. simpl.
    f_equal. apply Z.eqb_eq. now symmetry.
  - exists k. reflexivity.
Qed.

(** What [fitsinfo_of] writes: the columns of the first record with the
    identifier of the row, and the long-duration flag computed from the
    [time] series of that record. *)
Lemma fitsinfo_of_inv (data : list flare) (v : Q) (l : launch) (fi : fitsinfo) :
  fitsinfo_of data v l = Ok fi ->
  exists k fl,
    first_match data (Flare_ID l) k /\
    nth_error data k = Some fl /\
    joined_from fl fi /\
    Flare_success fi = Qgtb (peak_flux fl) v /\
    match Np.np_where (map (fun t => Qeq_bool t (peak_time fl)) (time fl)) with
    | [] => LongDuration fi = Nan
    | p :: _ =>
        exists final_flux,
          (if length (time fl) <=? p + 20 then final_flux = 0%Q
           else nth_error (time fl) (p + 20) = Some final_flux) /\
          LongDuration fi =
            Boolean (Qgtb final_flux (peak_flux fl * (2 # 10))%Q)
    end.
Proof.
  unfold fitsinfo_of. intros H.
  destruct (launched_flare data (Flare_ID l)) as [k|] eqn:Ek; simpl in H;
    [|discriminate].
  destruct (getitem data k) as [fl|] eqn:Efl; simpl in H; [|discriminate].
  apply launched_flare_first in Ek. apply getitem_Ok in Efl.
  exists k, fl. split; [exact Ek|]. split; [exact Efl|].
  destruct (Np.np_where (map (fun t => Qeq_bool t (peak_time fl)) (time fl)))
    as [|p r].
  - simpl in H. injection H as <-. repeat split.
  - destruct (length (time fl) <=? p + 20) eqn:Elen.
    + simpl in H. injection H as <-. repeat split. exists 0%Q. split; reflexivity.
    + destruct (getitem (time fl) (p + 20)) as [x|] eqn:Ex; simpl in H;
        [|discriminate].
      injection H as <-. repeat split. exists x.
      split; [now apply getitem_Ok | reflexivity].
Qed.

Lemma save_fitsinfo_inv (data : list flare) (v : Q) (df : list launch) :
  forall joined,
    save_fitsinfo_to_df data v df = Ok joined ->
    map fst joined = df /\
    forall l fi, In (l, fi) joined -> fitsinfo_of data v l = Ok fi.
Proof.
  induction df as [|l0 df IH]; intros joined H; simpl in H.
  - injection H as <-. split; [reflexivity | contradiction].
  - destruct (fitsinfo_of data v l0) as [fi0|] eqn:E0; simpl in H;
      [|discriminate].
    destruct (save_fitsinfo_to_df data v df) as [rest|]; simpl in H;
      [|discriminate].
    injection H as <-. destruct (IH rest eq_refl) as (Hmap & Hall). split.
    + simpl. now rewrite Hmap.
    + intros l fi [Heq | Hin]; [congruence | now apply Hall].
Qed.

(** The long-duration block never raises: the read 20 places after the peak
    is guarded. *)
Lemma long_duration_returns (fl : flare) :
  exists ld,
    match Np.np_where (map (fun t => Qeq_bool t (peak_time fl)) (time fl)) with
    | p :: _ =>
        final_flux <- (if length (time fl) <=? p + 20 then Ok 0%Q
                       else getitem (time fl) (p + 20)) ;;
        Ok (Boolean (Qgtb final_flux (peak_flux fl * (2 # 10))%Q))
    | [] => Ok Nan
    end = Ok ld.
Proof.
  destruct (Np.np_where _) as [|p r]; [eauto|].
  destruct (Nat.leb_spec (length (time fl)) (p + 20)) as [Hle | Hlt].
  - simpl. eauto.
  - destruct (getitem_in_range (time fl) (p + 20) Hlt) as (x & ->).
    simpl. eauto.
Qed.

(** The join of a row whose identifier occurs in the archive returns. *)
Lemma fitsinfo_of_found (data : list flare) (v : Q) (l : launch) :
  (exists fl, In fl data /\ flare_ID fl = Flare_ID l) ->
  exists fi, fitsinfo_of data v l = Ok fi.
Proof.
  intros (fl & Hin & Hid).
  destruct (launched_flare_found data (Flare_ID l) fl Hin Hid) as (k & Hk).
  unfold fitsinfo_of. rewrite Hk. simpl.
  apply launched_flare_first in Hk as ((fl' & Hfl' & _) & _).
  apply getitem_Ok in Hfl'. rewrite Hfl'. simpl.
  destruct (long_duration_returns fl') as (ld & ->). simpl. eauto.
Qed.

Lemma save_fitsinfo_returns (data : list flare) (v : Q) (df : list launch) :
  Forall (fun l => exists fl, In fl data /\ flare_ID fl = Flare_ID l) df ->
  exists joined, save_fitsinfo_to_df data v df = Ok joined.
Proof.
  induction 1 as [|l df Hl _ IH]; simpl; [eauto|].
  destruct (fitsinfo_of_found data v l Hl) as (fi & ->).
  destruct IH as (joined & ->). simpl. eauto.
Qed.

(** C9.  When every row carries an identifier that occurs in the archive,
    the join returns, keeps the rows, and gives every row the columns of the
    first record of the archive that carries the identifier of the row, also
    when later records carry it too: peak flux, peak time, start-to-peak time,
    background flux and class are those of that record, and the duration is
    the length of its [xrsa] series less 30. *)
Theorem metadata_join_first_match (data : list flare) (v : Q)
  (df : list launch) :
  Forall (fun l => exists fl, In fl data /\ flare_ID fl = Flare_ID l) df ->
  exists joined,
    save_fitsinfo_to_df data v df = Ok joined /\
    map fst joined = df /\
    forall l fi, In (l, fi) joined ->
      exists k fl,
        first_match data (Flare_ID l) k /\
        nth_error data k = Some fl /\
        joined_from fl fi.
Proof.
  intros Hids.
  destruct (save_fitsinfo_returns data v df Hids) as (joined & H).
  exists joined. split; [exact H|].
  apply save_fitsinfo_inv in H as (Hmap & Hall).
  split; [exact Hmap|]. intros l fi Hin.
  apply Hall, fitsinfo_of_inv in Hin as (k & fl & Hk & Hfl & Hj & _).
  exists k, fl. auto.
Qed.

(** The archive [Run.duplicated] holds [Sample.trailing], then
    [Sample.late_again], then [Sample.late]; the last two share the identifier
    12.  The loop triggers on [Sample.trailing] and on [Sample.late], and the
    row of [Sample.late] is joined to the record at position 1, that of
    [Sample.late_again]: class B1, peak flux 1, peak time 600 and duration
    40 - 30, not the class M1, peak flux 10, peak time 1500 and duration 0 of
    its own record at position 2. *)
Lemma metadata_join_first_match_witness :
  exists s',
    loop_through_flares Run.duplicated
      (map Sample.xrsb_above_1 Run.duplicated) fresh = Ok s' /\
    map Flare_Number (calculated_flarelist s') = [0; 2] /\
    map Flare_ID (calculated_flarelist s') = [14; 12]%Z /\
    exists joined,
      save_fitsinfo_to_df Run.duplicated 1%Q (calculated_flarelist s')
        = Ok joined /\
      map fst joined = calculated_flarelist s' /\
      map (fun lf => Flare_Class (snd lf)) joined = ["B2"; "B1"]%string /\
      map (fun lf => Flare_Max_Flux (snd lf)) joined = [2; 1]%Q /\
      map (fun lf => Peak_Time (snd lf)) joined = [480; 600]%Q /\
      map (fun lf => Duration (snd lf)) joined = [-20; 10]%Z /\
      forall l fi, In (l, fi) joined ->
        exists k fl,
          first_match Run.duplicated (Flare_ID l) k /\
          nth_error Run.duplicated k = Some fl /\
          joined_from fl fi.
Proof.
  let r := eval vm_compute in
    (loop_through_flares Run.duplicated
       (map Sample.xrsb_above_1 Run.duplicated) fresh) in
  match r with
  | Ok ?s1 => exists s1
  end.
  split; [vm_compute; reflexivity|].
  split; [reflexivity|]. split; [reflexivity|].
  match goal with
  | |- exists joined, save_fitsinfo_to_df ?d ?v ?df = _ /\ _ =>
      destruct (metadata_join_first_match d v df)
        as (joined & Hj & Hmap & Hfirst)
  end.
  - simpl calculated_flarelist. repeat constructor; simpl.
    + exists Sample.trailing. split; [now left | reflexivity].
    + exists Sample.late. split; [right; right; now left | reflexivity].
  - exists joined. split; [exact Hj|]. split; [exact Hmap|].
    vm_compute in Hj. injection Hj as <-.
    split; [reflexivity|]. split; [reflexivity|]. split; [reflexivity|].
    split; [reflexivity|]. exact Hfirst.
Defined.

(** C6.  The claim: when the sample 20 places after the peak exists, the
    long-duration flag tells whether the flux there still exceeds a fifth of
    the peak flux.  The program (whose comment and variable [final_flux] say
    the same) reads the [time] series at that place instead of a flux series:
    for [Sample.brief], peaking at index 20 with flux 10, both channels are
    back at 1 at index 40, below the bar of 2, yet the flag is true because
    the timestamp 2400 exceeds 2.  (Lemma [fitsinfo_of_inv] gives the flag in
    general.) *)
Theorem long_duration_reads_timestamp :
  exists r,
    run_parameter [Sample.brief] 1%Q [Sample.xrsb_above_1 Sample.brief] fresh
      = Ok (Some [r]) /\
    Np.np_where (map (fun t => Qeq_bool t (peak_time Sample.brief))
                     (time Sample.brief)) = [20] /\
    nth_error (time Sample.brief) (20 + 20) = Some 2400%Q /\
    nth_error (xrsb Sample.brief) (20 + 20) = Some 1%Q /\
    nth_error (xrsa Sample.brief) (20 + 20) = Some 1%Q /\
    (peak_flux Sample.brief * (2 # 10) == 2)%Q /\
    LongDuration (info r) = Boolean true.
Proof.
  eexists. split; [vm_compute; reflexivity|].
  repeat split.
Qed.

(** ** The final filter *)

Lemma drop_na_keeps (df : list row) (r : row) :
  In r (drop_na df) <-> In r df /\ known r.
Proof.
  unfold drop_na, known. rewrite filter_In, negb_true_iff, orb_false_iff.
  destruct (Max_HiC (entry r)), (LongDuration (info r)); simpl;
    intuition congruence.
Qed.

Lemma postloop_table_known (data : list flare) (v : Q) (s : self) (df : list row) :
  perform_postloop_functions data v s = Ok df -> Forall known df.
Proof.
  unfold perform_postloop_functions.
  destruct (save_fitsinfo_to_df data v (save_flarelist_to_df s)) as [joined|];
    simpl; [|discriminate].
  intros H. injection H as <-. apply Forall_forall.
  intros r Hr. apply drop_na_keeps in Hr. apply Hr.
Qed.

(** C7.  The table that a configuration hands on for saving is the filtered
    one: it holds no row whose observed maximum or long-duration flag is
    [nan], and of the rows present before the filter it keeps exactly those
    where both are known, in their order. *)
Theorem final_table_has_no_unknown (data : list flare) (v : Q)
  (checks : list trigger_input) (s : self) (df : list row) :
  run_parameter data v checks s = Ok (Some df) ->
  Forall known df /\
  exists s1 unfiltered,
    loop_through_flares data checks s = Ok s1 /\
    map entry unfiltered = calculated_flarelist s1 /\
    df = drop_na unfiltered /\
    forall r, In r unfiltered -> (In r df <-> known r).
Proof.
  unfold run_parameter.
  destruct (loop_through_flares data checks s) as [s1|]; simpl; [|discriminate].
  destruct (0 <? length (calculated_flarelist s1)); [|discriminate].
  destruct (perform_postloop_functions data v s1) as [df'|] eqn:E; simpl;
    [|discriminate].
  intros H. injection H as <-. split.
  - apply (postloop_table_known _ _ _ _ E).
  - unfold perform_postloop_functions in E.
    destruct (save_fitsinfo_to_df data v (save_flarelist_to_df s1))
      as [joined|] eqn:Ej; simpl in E; [|discriminate].
    injection E as <-. apply save_fitsinfo_inv in Ej as (Hmap & _).
    exists s1. eexists. split; [reflexivity|]. split; [|split; [reflexivity|]].
    + rewrite map_map. simpl. exact Hmap.
    + intros r Hr. rewrite drop_na_keeps. tauto.
Qed.

Lemma final_table_has_no_unknown_witness :
  exists r,
    run_parameter [Sample.trailing; Sample.late] 1%Q
      [Sample.xrsb_above_1 Sample.trailing; Sample.xrsb_above_1 Sample.late]
      fresh = Ok (Some [r]) /\
    Flare_Number (entry r) = 1 /\
    Forall known [r] /\
    exists s1 unfiltered,
      loop_through_flares [Sample.trailing; Sample.late]
        [Sample.xrsb_above_1 Sample.trailing; Sample.xrsb_above_1 Sample.late]
        fresh = Ok s1 /\
      map entry unfiltered = calculated_flarelist s1 /\
      [r] = drop_na unfiltered /\
      forall r', In r' unfiltered -> (In r' [r] <-> known r').
Proof.
  eexists.
  match goal with
  | |- ?hyp /\ _ => assert (Hrun : hyp) by (vm_compute; reflexivity)
  end.
  split; [exact Hrun|]. split; [reflexivity|].
  exact (final_table_has_no_unknown _ _ _ _ _ Hrun).
Defined.

(** ** The scenarios of the specification *)

(** Scenario A: trigger at 5, window [[14, 20)], cancellation from the
    samples 5 and 8 (equal, hence not cancelled). *)
Example scenario_A_trigger :
  exists s1 s2 l,
    flareloop_check_if_value_surpassed fresh
      (SingleChannel (xrsb Sample.scenario_A) (1 # 100000)%Q) = Ok s1 /\
    (trigger_index s1, hic_obs_start s1, hic_obs_end s1) = (5, 14, 20) /\
    calculate_observed_xrsb_and_cancellation [Sample.scenario_A] s1 0 = Ok s2 /\
    calculated_flarelist s2 = [l] /\
    Cancelled l = Boolean false.
Proof. do 3 eexists. repeat split. Qed.

(** Scenario B: the conjunction triggers at 7, not at the earlier crossing
    of [xrsa] alone. *)
Example scenario_B_trigger :
  triggered_check
    (MultiChannel [xrsa Sample.scenario_B; xrsb Sample.scenario_B]
                  [(1 # 1000000)%Q; (1 # 100000)%Q])
  = Ok (seq 7 23).
Proof. reflexivity. Qed.

(** Scenario C: a flare of 10 samples triggered at 8 has its window
    [[17, 23)] out of range; the three observation outputs are [nan] and the
    row is dropped by the final filter. *)
Example scenario_C_dropped :
  exists s1 l,
    loop_through_flares [Sample.trailing] [Sample.xrsb_above_1 Sample.trailing]
      fresh = Ok s1 /\
    (trigger_index s1, hic_obs_start s1, hic_obs_end s1) = (8, 17, 23) /\
    calculated_flarelist s1 = [l] /\
    (Max_HiC l, Mean_HiC l, Peak_Observed l) = (Nan, Nan, Nan) /\
    run_parameter [Sample.trailing] 1%Q [Sample.xrsb_above_1 Sample.trailing]
      fresh = Ok (Some []).
Proof. do 2 eexists. repeat split. Qed.

(** Scenario D: an observed maximum of 150 against a peak flux of 1000 is
    below the bar of 200. *)
Example scenario_D_below_bar (fi : fitsinfo) :
  Flare_Max_Flux fi = 1000%Q ->
  above_fifth_of_peak (Float 150) fi = false.
Proof. intros H. simpl. rewrite H. reflexivity. Qed.

(** * Further properties of the program *)

(** ** The trigger check, one channel *)

Lemma where_from_In (mask : list bool) :
  forall k j,
    In j (Np.where_from k mask) <->
    k <= j /\ nth_error mask (j - k) = Some true.
Proof.
  induction mask as [|b m IH]; intros k j; simpl.
  - split; [contradiction|]. intros (_ & H).
    destruct (j - k); discriminate.
  - assert (Hrest : In j (Np.where_from (S k) m) <->
                    k < j /\ nth_error (b :: m) (j - k) = Some true).
    { rewrite IH. split.
      - intros (Hle & Hn). split; [lia|].
        replace (j - k) with (S (j - S k)) by lia. exact Hn.
      - intros (Hlt & Hn). split; [lia|].
        replace (j - k) with (S (j - S k)) in Hn by lia. exact Hn. }
    destruct b; simpl.
    + rewrite Hrest. split.
      * intros [<- | (Hlt & Hn)].
        -- rewrite Nat.sub_diag. auto.
        -- split; [lia | exact Hn].
      * intros (Hle & Hn). destruct (Nat.eq_dec k j) as [-> | Hne]; [now left|].
        right. split; [lia | exact Hn].
    + rewrite Hrest. split.
      * intros (Hlt & Hn). split; [lia | exact Hn].
      * intros (Hle & Hn). split; [|exact Hn].
        destruct (Nat.eq_dec k j) as [-> | Hne]; [|lia].
        rewrite Nat.sub_diag in Hn. discriminate.
Qed.

Lemma np_where_In (mask : list bool) (j : nat) :
  In j (Np.np_where mask) <-> nth_error mask j = Some true.
Proof.
  unfold Np.np_where. rewrite where_from_In, Nat.sub_0_r.
  split; [now intros (_ & H) | intros H; split; [lia | exact H]].
Qed.

(** X1.  For a series of doubles and a threshold that is a double, the
    single-channel check never raises and leaves the flare list alone.  It
    triggers if and only if some sample is strictly above the threshold, and
    then at the first such sample. *)
Theorem single_channel_trigger (s : self) (arrays : list Q) (parameters : Q) :
  forallb Np.is_float64 arrays = true ->
  Np.is_float64 parameters = true ->
  exists s',
    flareloop_check_if_value_surpassed s (SingleChannel arrays parameters)
      = Ok s' /\
    calculated_flarelist s' = calculated_flarelist s /\
    (triggered_bool s' = true <->
     exists k, single_condition arrays parameters k) /\
    (triggered_bool s' = true ->
     single_condition arrays parameters (trigger_index s') /\
     forall j, j < trigger_index s' -> ~ single_condition arrays parameters j).
Proof.
  intros _ _. unfold flareloop_check_if_value_surpassed.
  destruct (triggered_check (SingleChannel arrays parameters))
    as [[|t r]|e] eqn:E; simpl; try discriminate.
  - eexists. split; [reflexivity|]. simpl. split; [reflexivity|].
    split; [split|]; try discriminate.
    intros (k & Hk). exfalso. apply (single_channel_none _ _ E k Hk).
  - eexists. split; [reflexivity|]. simpl. split; [reflexivity|].
    pose proof (single_channel_earliest _ _ _ _ E) as (Hat & Hbefore).
    split; [split; [intros _; eauto | reflexivity] | auto].
Qed.

(** The series [0.5, 0.75, 1.5, 1.25] against the threshold 0.75: the sample
    at index 1 equals the threshold, the check triggers at index 2. *)
Lemma single_channel_trigger_witness :
  forallb Np.is_float64 [1 # 2; 3 # 4; 3 # 2; 5 # 4]%Q = true /\
  Np.is_float64 (3 # 4) = true /\
  exists s',
    flareloop_check_if_value_surpassed fresh
      (SingleChannel [1 # 2; 3 # 4; 3 # 2; 5 # 4]%Q (3 # 4)%Q) = Ok s' /\
    triggered_bool s' = true /\
    trigger_index s' = 2 /\
    single_condition [1 # 2; 3 # 4; 3 # 2; 5 # 4]%Q (3 # 4)%Q 2 /\
    forall j, j < 2 ->
      ~ single_condition [1 # 2; 3 # 4; 3 # 2; 5 # 4]%Q (3 # 4)%Q j.
Proof.
  assert (H1 : forallb Np.is_float64 [1 # 2; 3 # 4; 3 # 2; 5 # 4]%Q = true)
    by (vm_compute; reflexivity).
  assert (H2 : Np.is_float64 (3 # 4) = true) by (vm_compute; reflexivity).
  split; [exact H1|]. split; [exact H2|].
  destruct (single_channel_trigger fresh _ _ H1 H2)
    as (s' & Hs' & _ & _ & Hfirst).
  exists s'. split; [exact Hs'|].
  vm_compute in Hs'. injection Hs' as <-.
  split; [reflexivity|]. split; [reflexivity|].
  apply Hfirst. reflexivity.
Defined.

(** ** The trigger check, several channels *)

Import FlareLoop.

Lemma Qeq_bool_false_l (q0 q p : Q) :
  Qeq_bool q0 p = true -> Qeq_bool q0 q = false -> Qeq_bool q p = false.
Proof.
  intros H0 Hq. destruct (Qeq_bool q p) eqn:E; [|reflexivity].
  rewrite <- Hq. symmetry. apply Qeq_bool_iff.
  apply Qeq_bool_iff in H0, E. rewrite H0, E. reflexivity.
Qed.

Lemma existsb_Qeq_bool (q p : Q) (pairs : list (list Q * Q)) :
  Qeq_bool q p = true ->
  existsb (fun pr => Qeq_bool q (snd pr)) pairs =
  existsb (fun pr => Qeq_bool p (snd pr)) pairs.
Proof.
  intros H. apply Qeq_bool_iff in H.
  induction pairs as [|pr rest IH]; simpl; [reflexivity|].
  rewrite IH. f_equal. now rewrite H.
Qed.

Lemma set_column_keys (df : Pd.frame) (p : Q) (col : list bool) (q : Q) :
  In q (map fst (Pd.set_column df p col)) -> In q (map fst df) \/ q = p.
Proof.
  induction df as [|[q0 c0] rest IH]; simpl.
  - intros [<- | []]. now right.
  - destruct (Qeq_bool q0 p); simpl.
    + intros [<- | H]; auto.
    + intros [<- | H]; auto. destruct (IH H); auto.
Qed.

Lemma set_column_distinct (df : Pd.frame) (p : Q) (col : list bool) :
  distinct (map fst df) = true ->
  distinct (map fst (Pd.set_column df p col)) = true.
Proof.
  induction df as [|[q0 c0] rest IH]; simpl; [reflexivity|].
  intros H. apply andb_true_iff in H as (Hq0 & Hrest).
  destruct (Qeq_bool q0 p) eqn:E; simpl.
  - rewrite Hq0, Hrest. reflexivity.
  - rewrite IH by exact Hrest. rewrite andb_true_r.
    apply forallb_forall. intros q Hq.
    apply set_column_keys in Hq as [Hq | ->].
    + rewrite forallb_forall in Hq0. apply Hq0, Hq.
    + now rewrite E.
Qed.

(** With pairwise different labels, the frame after [df[label] = col]
    holds [col] under that label and every other column as before. *)
Lemma set_column_entries (df : Pd.frame) (p : Q) (col : list bool) :
  distinct (map fst df) = true ->
  (forall q c, In (q, c) (Pd.set_column df p col) ->
     (In (q, c) df /\ Qeq_bool q p = false) \/
     (c = col /\ Qeq_bool q p = true)) /\
  (forall q c, In (q, c) df -> Qeq_bool q p = false ->
     In (q, c) (Pd.set_column df p col)) /\
  (exists q, In (q, col) (Pd.set_column df p col) /\ Qeq_bool q p = true).
Proof.
  induction df as [|[q0 c0] rest IH]; simpl; intros Hd.
  - repeat split.
    + intros q c [H | []]. injection H as <- <-. right.
      split; [reflexivity | apply Qeq_bool_refl].
    + contradiction.
    + exists p. split; [now left | apply Qeq_bool_refl].
  - apply andb_true_iff in Hd as (Hq0 & Hrest).
    destruct (Qeq_bool q0 p) eqn:E.
    + repeat split.
      * intros q c [H | H].
        -- injection H as <- <-. now right.
        -- left. split; [now right|].
           apply (Qeq_bool_false_l q0); [exact E|].
           rewrite forallb_forall in Hq0.
           apply negb_true_iff, Hq0, in_map_iff. exists (q, c). auto.
      * intros q c [H | H] Hq.
        -- injection H as <- <-. congruence.
        -- now right.
      * exists q0. split; [now left | exact E].
    + destruct (IH Hrest) as (Hin & Hkeep & q1 & Hq1 & Eq1). repeat split.
      * intros q c [H | H].
        -- injection H as <- <-. left. split; [now left | exact E].
        -- destruct (Hin q c H) as [(H1 & H2) | H1]; [left | right]; auto.
      * intros q c [H | H] Hq; [now left | right; now apply Hkeep].
      * exists q1. split; [now right | exact Eq1].
Qed.

Lemma setitem_set_column (df df' : Pd.frame) (p : Q) (col : list bool) :
  Pd.setitem df p col = Ok df' -> df' = Pd.set_column df p col.
Proof.
  unfold Pd.setitem. destruct df as [|c0 rest].
  - intros H. now injection H as <-.
  - destruct (length col =? Pd.index_len (c0 :: rest)).
    + intros H. now injection H as <-.
    + destruct (Pd.index_len (c0 :: rest) =? 0); discriminate.
Qed.

(** The columns of the frame after the zip loop: those of the pairs that
    no later pair overwrote, and the columns that were there before and that
    no pair overwrote. *)
Lemma fill_frame_columns (pairs : list (list Q * Q)) :
  forall df0 df,
    fill_frame df0 pairs = Ok df ->
    distinct (map fst df0) = true ->
    forall c,
      (exists q, In (q, c) df) <->
      (exists arr p, In (arr, p) (effective pairs) /\
                     c = map (fun x => Qgeb x p) arr) \/
      (exists q, In (q, c) df0 /\
                 existsb (fun pr => Qeq_bool q (snd pr)) pairs = false).
Proof.
  induction pairs as [|[arr p] rest IH]; intros df0 df H Hd c; simpl in H.
  - injection H as <-. simpl. split.
    + intros (q & Hq). right. eauto.
    + intros [(a & b & [] & _) | (q & Hq & _)]. eauto.
  - destruct (Pd.setitem df0 p (map (fun x => Qgeb x p) arr)) as [df1|] eqn:E;
      simpl in H; [|discriminate].
    apply setitem_set_column in E. subst df1.
    destruct (set_column_entries df0 p (map (fun x => Qgeb x p) arr) Hd)
      as (Hin & Hkeep & q1 & Hq1 & Eq1).
    rewrite (IH _ _ H (set_column_distinct _ _ _ Hd) c). simpl.
    destruct (existsb (fun pr => Qeq_bool p (snd pr)) rest) eqn:Ex.
    + split.
      * intros [Heff | (q & Hq & Hnone)]; [now left|].
        destruct (Hin q c Hq) as [(H0 & Hqp) | (_ & Hqp)].
        -- right. exists q. rewrite Hqp. auto.
        -- rewrite (existsb_Qeq_bool _ _ _ Hqp) in Hnone. congruence.
      * intros [Heff | (q & Hq & Hnone)]; [now left|].
        apply orb_false_iff in Hnone as (Hqp & Hnone).
        right. exists q. split; [apply Hkeep; assumption | exact Hnone].
    + split.
      * intros [(a & b & Hab & Hc) | (q & Hq & Hnone)].
        -- left. exists a, b. split; [now right | exact Hc].
        -- destruct (Hin q c Hq) as [(H0 & Hqp) | (Hc & Hqp)].
           ++ right. exists q. rewrite Hqp. auto.
           ++ left. exists arr, p. split; [now left | exact Hc].
      * intros [(a & b & [Hab | Hab] & Hc) | (q & Hq & Hnone)].
        -- injection Hab as <- <-. right. exists q1. subst c.
           split; [exact Hq1|].
           rewrite (existsb_Qeq_bool _ _ _ Eq1). exact Ex.
        -- left. eauto.
        -- apply orb_false_iff in Hnone as (Hqp & Hnone).
           right. exists q. split; [apply Hkeep; assumption | exact Hnone].
Qed.

Lemma set_column_nonempty (df : Pd.frame) (p : Q) (col : list bool) :
  Pd.set_column df p col <> [].
Proof.
  destruct df as [|[q c] rest]; simpl; [discriminate|].
  destruct (Qeq_bool q p); discriminate.
Qed.

Lemma fill_frame_nonempty (pairs : list (list Q * Q)) :
  forall df0 df,
    fill_frame df0 pairs = Ok df ->
    df0 <> [] \/ pairs <> [] ->
    df <> [].
Proof.
  induction pairs as [|[arr p] rest IH]; intros df0 df H Hne; simpl in H.
  - injection H as <-. destruct Hne; congruence.
  - destruct (Pd.setitem df0 p (map (fun x => Qgeb x p) arr)) as [df1|] eqn:E;
      simpl in H; [|discriminate].
    apply setitem_set_column in E. subst df1.
    apply (IH _ _ H). left. apply set_column_nonempty.
Qed.

Lemma all_rows_nth (df : Pd.frame) (k : nat) :
  k < Pd.index_len df ->
  nth_error (Pd.all_rows df) k =
  Some (forallb (fun c => nth k (snd c) false) df).
Proof.
  intros Hk. unfold Pd.all_rows.
  rewrite nth_error_map, nth_error_nth' with (d := 0)
    by (rewrite length_seq; exact Hk).
  rewrite seq_nth by exact Hk. reflexivity.
Qed.

(** The indices that the multi-channel check reports are those where every
    pair still in the frame is at or above its threshold. *)
Lemma multi_channel_reported (arrays : list (list Q)) (parameters : list Q)
  (checked : list nat) :
  triggered_check (MultiChannel arrays parameters) = Ok checked ->
  combine arrays parameters <> [] ->
  forall k, In k checked <-> effective_condition arrays parameters k.
Proof.
  simpl. intros H Hne k.
  destruct (fill_frame [] (combine arrays parameters)) as [df|] eqn:E;
    simpl in H; [|discriminate].
  injection H as <-.
  pose proof (fill_frame_columns _ _ _ E eq_refl) as Hcols.
  rewrite np_where_In. unfold effective_condition. split.
  - intros Hk arr p Hin. apply nth_map_geb.
    assert (Hc : exists q, In (q, map (fun x => Qgeb x p) arr) df).
    { apply Hcols. left. eauto. }
    destruct Hc as (q & Hq).
    apply (all_rows_true _ _ Hk (q, map (fun x => Qgeb x p) arr) Hq).
  - intros Hcond.
    assert (Hall : forall c, In c df -> nth k (snd c) false = true).
    { intros [q c] Hc. simpl.
      destruct (proj1 (Hcols c)) as [(arr & p & Hin & ->) | (q' & [] & _)];
        [eauto|].
      apply nth_map_geb, Hcond, Hin. }
    destruct df as [|[q0 c0] rest].
    + exfalso. apply (fill_frame_nonempty _ _ _ E); auto.
    + assert (Hk : k < Pd.index_len ((q0, c0) :: rest)).
      { simpl. specialize (Hall (q0, c0) (or_introl eq_refl)). simpl in Hall.
        destruct (Nat.lt_ge_cases k (length c0)) as [Hlt | Hge]; [exact Hlt|].
        rewrite nth_overflow in Hall by exact Hge. discriminate. }
      rewrite (all_rows_nth _ _ Hk). f_equal.
      apply forallb_forall. exact Hall.
Qed.

Lemma multi_channel_first (arrays : list (list Q)) (parameters : list Q)
  (checked : list nat) :
  triggered_check (MultiChannel arrays parameters) = Ok checked ->
  combine arrays parameters <> [] ->
  match checked with
  | [] => forall k, ~ effective_condition arrays parameters k
  | t :: _ =>
      effective_condition arrays parameters t /\
      forall j, j < t -> ~ effective_condition arrays parameters j
  end.
Proof.
  intros H Hne. pose proof (multi_channel_reported _ _ _ H Hne) as Hrep.
  destruct checked as [|t r].
  - intros k Hk. apply Hrep in Hk. contradiction.
  - split; [apply Hrep; now left|].
    intros j Hj Hcond. apply Hrep in Hcond.
    simpl in H.
    destruct (fill_frame [] (combine arrays parameters)) as [df|];
      simpl in H; [|discriminate].
    injection H as H. rewrite <- H in Hcond. apply np_where_In in Hcond.
    apply np_where_head in H as (_ & Hbefore).
    rewrite (Hbefore j Hj) in Hcond. discriminate.
Qed.

Lemma effective_distinct (pairs : list (list Q * Q)) :
  distinct (map snd pairs) = true -> effective pairs = pairs.
Proof.
  induction pairs as [|[arr p] rest IH]; simpl; [reflexivity|].
  intros H. apply andb_true_iff in H as (Hp & Hrest).
  rewrite IH by exact Hrest.
  assert (E : existsb (fun pr => Qeq_bool p (snd pr)) rest = false).
  { clear -Hp. induction rest as [|pr rest IH]; simpl in *; [reflexivity|].
    apply andb_true_iff in Hp as (H1 & H2).
    apply negb_true_iff in H1. rewrite H1, IH by exact H2. reflexivity. }
  now rewrite E.
Qed.

Lemma set_column_index_len (df : Pd.frame) (p : Q) (col : list bool) :
  df <> [] -> length col = Pd.index_len df ->
  Pd.index_len (Pd.set_column df p col) = Pd.index_len df.
Proof.
  destruct df as [|[q c] rest]; [congruence|]. simpl. intros _ H.
  destruct (Qeq_bool q p); simpl; [exact H | reflexivity].
Qed.

(** A frame of [n] rows takes any number of columns of length [n]. *)
Lemma fill_frame_aligned (n : nat) (pairs : list (list Q * Q)) :
  forall df0,
    (forall pr, In pr pairs -> length (fst pr) = n) ->
    df0 = [] \/ Pd.index_len df0 = n ->
    exists df, fill_frame df0 pairs = Ok df /\
               (df = [] \/ Pd.index_len df = n) /\
               (df0 <> [] \/ pairs <> [] -> df <> []).
Proof.
  induction pairs as [|[arr p] rest IH]; intros df0 Hlen H0; simpl.
  - exists df0. repeat split; [exact H0|]. intros [H | H]; congruence.
  - assert (Harr : length (map (fun x => Qgeb x p) arr) = n).
    { rewrite length_map. apply (Hlen (arr, p)). now left. }
    assert (E : exists df1,
               Pd.setitem df0 p (map (fun x => Qgeb x p) arr) = Ok df1 /\
               Pd.index_len df1 = n /\ df1 <> []).
    { destruct H0 as [-> | H0].
      - eexists. split; [reflexivity|]. split; [exact Harr | discriminate].
      - destruct df0 as [|c0 d0].
        + eexists. split; [reflexivity|]. split; [exact Harr | discriminate].
        + unfold Pd.setitem. rewrite Harr, H0, Nat.eqb_refl.
          eexists. split; [reflexivity|]. split.
          * rewrite set_column_index_len; [exact H0 | discriminate | congruence].
          * apply set_column_nonempty. }
    destruct E as (df1 & -> & Hn & Hne). simpl.
    destruct (IH df1) as (df & Hdf & Hidx & Hnon).
    + intros pr Hpr. apply Hlen. now right.
    + now right.
    + exists df. repeat split; auto.
Qed.

(** The check returns on series of one length. *)
Lemma multi_channel_aligned (arrays : list (list Q)) (parameters : list Q)
  (n : nat) :
  (forall arr p, In (arr, p) (combine arrays parameters) -> length arr = n) ->
  exists checked, triggered_check (MultiChannel arrays parameters) = Ok checked.
Proof.
  intros Hlen.
  destruct (fill_frame_aligned n (combine arrays parameters) [])
    as (df & Hdf & _).
  { intros [arr p] Hin. apply (Hlen arr p Hin). }
  { now left. }
  simpl. rewrite Hdf. simpl. eauto.
Qed.

(** X2.  What the multi-channel check tests, repeated thresholds included.
    The paired series have one length, series and thresholds are doubles and
    no threshold is zero.  A pair is overwritten by any later pair with the
    same threshold; the check returns, and it triggers if and only if some
    index has every remaining pair at or above its threshold, and then at the
    first such index. *)
Theorem multi_channel_trigger (s : self) (arrays : list (list Q))
  (parameters : list Q) (n : nat) :
  (forall arr p, In (arr, p) (combine arrays parameters) -> length arr = n) ->
  combine arrays parameters <> [] ->
  forallb (forallb Np.is_float64) arrays = true ->
  forallb (fun p => Np.is_float64 p && negb (Qeq_bool p 0)) parameters = true ->
  exists s',
    flareloop_check_if_value_surpassed s (MultiChannel arrays parameters)
      = Ok s' /\
    (triggered_bool s' = true <->
     exists k, effective_condition arrays parameters k) /\
    (triggered_bool s' = true ->
     effective_condition arrays parameters (trigger_index s') /\
     forall j, j < trigger_index s' ->
               ~ effective_condition arrays parameters j).
Proof.
  intros Hlen Hne _ _. unfold flareloop_check_if_value_surpassed.
  destruct (multi_channel_aligned _ _ _ Hlen) as (checked & E). rewrite E.
  pose proof (multi_channel_first _ _ _ E Hne) as Hfirst.
  destruct checked as [|t r]; simpl; eexists; (split; [reflexivity|]); simpl.
  - split; [split|]; try discriminate.
    intros (k & Hk). exfalso. apply (Hfirst k Hk).
  - destruct Hfirst as (Hat & Hbefore).
    split; [split; [intros _; eauto | reflexivity] | auto].
Qed.

(** Three series of four samples against the thresholds 1, 4 and 1: the
    first pair is overwritten by the third, and the check triggers at index 3
    although the first series is below its threshold there. *)
Lemma multi_channel_trigger_witness :
  (forall arr p,
     In (arr, p)
        (combine [[0; 3; 0; 0]; [5; 5; 0; 5]; [0; 0; 2; 2]]%Q [1; 4; 1]%Q) ->
     length arr = 4) /\
  forallb (forallb Np.is_float64)
    [[0; 3; 0; 0]; [5; 5; 0; 5]; [0; 0; 2; 2]]%Q = true /\
  forallb (fun p => Np.is_float64 p && negb (Qeq_bool p 0)) [1; 4; 1]%Q
    = true /\
  effective (combine [[0; 3; 0; 0]; [5; 5; 0; 5]; [0; 0; 2; 2]]%Q [1; 4; 1]%Q)
    = [([5; 5; 0; 5], 4); ([0; 0; 2; 2], 1)]%Q /\
  ~ multi_condition [[0; 3; 0; 0]; [5; 5; 0; 5]; [0; 0; 2; 2]]%Q [1; 4; 1]%Q 3 /\
  exists s',
    flareloop_check_if_value_surpassed fresh
      (MultiChannel [[0; 3; 0; 0]; [5; 5; 0; 5]; [0; 0; 2; 2]]%Q [1; 4; 1]%Q)
    = Ok s' /\
    triggered_bool s' = true /\
    trigger_index s' = 3 /\
    effective_condition
      [[0; 3; 0; 0]; [5; 5; 0; 5]; [0; 0; 2; 2]]%Q [1; 4; 1]%Q 3 /\
    forall j, j < 3 ->
      ~ effective_condition
          [[0; 3; 0; 0]; [5; 5; 0; 5]; [0; 0; 2; 2]]%Q [1; 4; 1]%Q j.
Proof.
  assert (H1 : forall arr p,
             In (arr, p)
                (combine [[0; 3; 0; 0]; [5; 5; 0; 5]; [0; 0; 2; 2]]%Q
                         [1; 4; 1]%Q) ->
             length arr = 4).
  { intros arr p [E | [E | [E | []]]]; injection E as <- _; reflexivity. }
  assert (H2 : forallb (forallb Np.is_float64)
                 [[0; 3; 0; 0]; [5; 5; 0; 5]; [0; 0; 2; 2]]%Q = true)
    by (vm_compute; reflexivity).
  assert (H3 : forallb (fun p => Np.is_float64 p && negb (Qeq_bool p 0))
                 [1; 4; 1]%Q = true)
    by (vm_compute; reflexivity).
  split; [exact H1|]. split; [exact H2|]. split; [exact H3|].
  split; [reflexivity|]. split.
  - intros H. destruct (H [0; 3; 0; 0]%Q 1%Q) as (x & Hx & Hle);
      [left; reflexivity|].
    simpl in Hx. injection Hx as <-. apply Hle. reflexivity.
  - destruct (multi_channel_trigger fresh _ _ 4 H1) as (s' & Hs' & _ & Hfirst);
      [discriminate | exact H2 | exact H3 |].
    exists s'. split; [exact Hs'|].
    vm_compute in Hs'. injection Hs' as <-.
    split; [reflexivity|]. split; [reflexivity|].
    apply Hfirst. reflexivity.
Defined.

(** X3.  The paired series have one length, series and thresholds are
    doubles and no two of the paired thresholds are the same number.  Then
    the multi-channel check returns, and it triggers if and only if some
    index has every paired series at or above its threshold, and then at the
    first such index. *)
Theorem multi_channel_trigger_distinct (s : self) (arrays : list (list Q))
  (parameters : list Q) (n : nat) :
  (forall arr p, In (arr, p) (combine arrays parameters) -> length arr = n) ->
  combine arrays parameters <> [] ->
  distinct (map snd (combine arrays parameters)) = true ->
  forallb (forallb Np.is_float64) arrays = true ->
  forallb Np.is_float64 parameters = true ->
  exists s',
    flareloop_check_if_value_surpassed s (MultiChannel arrays parameters)
      = Ok s' /\
    (triggered_bool s' = true <->
     exists k, multi_condition arrays parameters k) /\
    (triggered_bool s' = true ->
     multi_condition arrays parameters (trigger_index s') /\
     forall j, j < trigger_index s' -> ~ multi_condition arrays parameters j).
Proof.
  intros Hlen Hne Hd _ _. unfold flareloop_check_if_value_surpassed.
  destruct (multi_channel_aligned _ _ _ Hlen) as (checked & E). rewrite E.
  pose proof (multi_channel_first _ _ _ E Hne) as Hfirst.
  unfold effective_condition in Hfirst.
  rewrite (effective_distinct _ Hd) in Hfirst.
  fold (multi_condition arrays parameters) in Hfirst.
  destruct checked as [|t r]; simpl; eexists; (split; [reflexivity|]); simpl.
  - split; [split|]; try discriminate.
    intros (k & Hk). exfalso. apply (Hfirst k Hk).
  - destruct Hfirst as (Hat & Hbefore).
    split; [split; [intros _; eauto | reflexivity] | auto].
Qed.

(** Two series of five samples against the thresholds 0.5 and 2: the first
    series reaches 0.5 at index 1, the second reaches 2 only at index 3, and
    the check triggers at index 3. *)
Lemma multi_channel_trigger_distinct_witness :
  (forall arr p,
     In (arr, p)
        (combine [[1 # 4; 1 # 2; 3 # 4; 1; 1 # 4]; [1; 1; 3 # 2; 2; 5 # 2]]%Q
                 [1 # 2; 2]%Q) ->
     length arr = 5) /\
  distinct [1 # 2; 2]%Q = true /\
  forallb (forallb Np.is_float64)
    [[1 # 4; 1 # 2; 3 # 4; 1; 1 # 4]; [1; 1; 3 # 2; 2; 5 # 2]]%Q = true /\
  forallb Np.is_float64 [1 # 2; 2]%Q = true /\
  exists s',
    flareloop_check_if_value_surpassed fresh
      (MultiChannel
         [[1 # 4; 1 # 2; 3 # 4; 1; 1 # 4]; [1; 1; 3 # 2; 2; 5 # 2]]%Q
         [1 # 2; 2]%Q)
    = Ok s' /\
    triggered_bool s' = true /\
    trigger_index s' = 3 /\
    multi_condition
      [[1 # 4; 1 # 2; 3 # 4; 1; 1 # 4]; [1; 1; 3 # 2; 2; 5 # 2]]%Q
      [1 # 2; 2]%Q 3 /\
    forall j, j < 3 ->
      ~ multi_condition
          [[1 # 4; 1 # 2; 3 # 4; 1; 1 # 4]; [1; 1; 3 # 2; 2; 5 # 2]]%Q
          [1 # 2; 2]%Q j.
Proof.
  assert (H1 : forall arr p,
             In (arr, p)
                (combine
                   [[1 # 4; 1 # 2; 3 # 4; 1; 1 # 4]; [1; 1; 3 # 2; 2; 5 # 2]]%Q
                   [1 # 2; 2]%Q) ->
             length arr = 5).
  { intros arr p [E | [E | []]]; injection E as <- _; reflexivity. }
  assert (H2 : forallb (forallb Np.is_float64)
                 [[1 # 4; 1 # 2; 3 # 4; 1; 1 # 4]; [1; 1; 3 # 2; 2; 5 # 2]]%Q
               = true)
    by (vm_compute; reflexivity).
  assert (H3 : forallb Np.is_float64 [1 # 2; 2]%Q = true)
    by (vm_compute; reflexivity).
  split; [exact H1|]. split; [reflexivity|].
  split; [exact H2|]. split; [exact H3|].
  destruct (multi_channel_trigger_distinct fresh _ _ 5 H1)
    as (s' & Hs' & _ & Hfirst);
    [discriminate | reflexivity | exact H2 | exact H3 |].
  exists s'. split; [exact Hs'|].
  vm_compute in Hs'. injection Hs' as <-.
  split; [reflexivity|]. split; [reflexivity|].
  apply Hfirst. reflexivity.
Defined.

(** ** The trigger check and the lengths of the series *)

Lemma all_rows_length (df : Pd.frame) :
  length (Pd.all_rows df) = Pd.index_len df.
Proof. unfold Pd.all_rows. now rewrite length_map, length_seq. Qed.

(** X4.  When the paired series all have the same length [n], the
    multi-channel check does not raise, and a trigger index is below [n]. *)
Theorem multi_channel_aligned_returns (s : self) (arrays : list (list Q))
  (parameters : list Q) (n : nat) :
  (forall arr p, In (arr, p) (combine arrays parameters) -> length arr = n) ->
  exists s',
    flareloop_check_if_value_surpassed s (MultiChannel arrays parameters)
      = Ok s' /\
    calculated_flarelist s' = calculated_flarelist s /\
    (triggered_bool s' = true -> trigger_index s' < n).
Proof.
  intros Hlen.
  destruct (fill_frame_aligned n (combine arrays parameters) [])
    as (df & Hdf & Hidx & _).
  { intros [arr p] Hin. apply (Hlen arr p Hin). }
  { now left. }
  unfold flareloop_check_if_value_surpassed. simpl. rewrite Hdf. simpl.
  destruct (Np.np_where (Pd.all_rows df)) as [|t r] eqn:E.
  - eexists. split; [reflexivity|]. simpl. split; [reflexivity | discriminate].
  - eexists. split; [reflexivity|]. simpl. split; [reflexivity|]. intros _.
    apply np_where_head in E as (Hat & _).
    assert (Ht : t < length (Pd.all_rows df)).
    { apply nth_error_Some. congruence. }
    rewrite all_rows_length in Ht.
    destruct Hidx as [-> | Hidx]; [simpl in Ht; lia | lia].
Qed.

Lemma multi_channel_aligned_returns_witness :
  (forall arr p,
     In (arr, p) (combine [xrsa Sample.closing; xrsb Sample.closing]
                          [2; 3]%Q) ->
     length arr = 30) /\
  exists s',
    flareloop_check_if_value_surpassed fresh
      (MultiChannel [xrsa Sample.closing; xrsb Sample.closing] [2; 3]%Q)
      = Ok s' /\
    calculated_flarelist s' = calculated_flarelist fresh /\
    (triggered_bool s' = true -> trigger_index s' < 30).
Proof.
  assert (H : forall arr p,
             In (arr, p) (combine [xrsa Sample.closing; xrsb Sample.closing]
                                  [2; 3]%Q) ->
             length arr = 30).
  { intros arr p [E | [E | []]]; injection E as <- _; reflexivity. }
  split; [exact H|].
  exact (multi_channel_aligned_returns fresh _ _ 30 H).
Defined.

Lemma fill_frame_app (l1 l2 : list (list Q * Q)) :
  forall df0,
    fill_frame df0 (l1 ++ l2) =
    (df1 <- fill_frame df0 l1 ;; fill_frame df1 l2).
Proof.
  induction l1 as [|[arr p] l1 IH]; intros df0; simpl; [reflexivity|].
  destruct (Pd.setitem df0 p (map (fun x => Qgeb x p) arr)); simpl;
    [apply IH | reflexivity].
Qed.

(** X5.  When a paired series differs in length from the non-empty series
    paired before it, the multi-channel check raises [ValueError]. *)
Theorem multi_channel_misaligned_raises (s : self) (arrays : list (list Q))
  (parameters : list Q) (n : nat) (before after : list (list Q * Q))
  (arr : list Q) (p : Q) :
  combine arrays parameters = before ++ (arr, p) :: after ->
  before <> [] ->
  (forall pr, In pr before -> length (fst pr) = n) ->
  0 < n ->
  length arr <> n ->
  flareloop_check_if_value_surpassed s (MultiChannel arrays parameters)
    = Raise ValueError.
Proof.
  intros Hc Hne Hlen Hn Harr.
  destruct (fill_frame_aligned n before []) as (df & Hdf & Hidx & Hnon);
    [exact Hlen | now left |].
  unfold flareloop_check_if_value_surpassed. simpl.
  rewrite Hc, fill_frame_app, Hdf. simpl.
  destruct df as [|c0 d0]; [exfalso; apply Hnon; auto|].
  destruct Hidx as [Hidx | Hidx]; [discriminate|].
  unfold Pd.setitem. rewrite length_map, Hidx.
  destruct (Nat.eqb_spec (length arr) n) as [E | _]; [contradiction|].
  destruct (Nat.eqb_spec n 0) as [E | _]; [lia|]. reflexivity.
Qed.

Lemma multi_channel_misaligned_raises_witness :
  combine [[1; 2; 3]; [4; 5]]%Q [1; 2]%Q
    = [([1; 2; 3], 1)]%Q ++ ([4; 5], 2)%Q :: [] /\
  flareloop_check_if_value_surpassed fresh
    (MultiChannel [[1; 2; 3]; [4; 5]]%Q [1; 2]%Q) = Raise ValueError.
Proof.
  split; [reflexivity|].
  apply (multi_channel_misaligned_raises fresh _ _ 3
           [([1; 2; 3], 1)]%Q [] [4; 5]%Q 2%Q).
  - reflexivity.
  - discriminate.
  - intros pr [<- | []]. reflexivity.
  - lia.
  - simpl. lia.
Defined.

(** ** The flare loop *)

Lemma flareloop_check_cases (s s1 : self) (inp : trigger_input) :
  flareloop_check_if_value_surpassed s inp = Ok s1 ->
  calculated_flarelist s1 = calculated_flarelist s /\
  triggered_bool s1 = triggers inp /\
  (triggered_bool s1 = true ->
   exists t r, triggered_check inp = Ok (t :: r) /\
               trigger_index s1 = t /\
               hic_obs_start s1 = t + 9 /\
               hic_obs_end s1 = t + 15).
Proof.
  unfold flareloop_check_if_value_surpassed, triggers.
  destruct (triggered_check inp) as [[|t r]|e]; simpl; intros H;
    [injection H as <- | injection H as <- | discriminate]; simpl.
  - repeat split. discriminate.
  - repeat split. intros _. exists t, r. repeat split; lia.
Qed.

(** The loop appends one entry for each input that triggers, in order. *)
Lemma loop_from_entries (data : list flare) (checks : list trigger_input) :
  forall i s s',
    loop_from data i checks s = Ok s' ->
    exists new,
      calculated_flarelist s' = calculated_flarelist s ++ new /\
      Forall2 (fun k l =>
                 i <= k /\
                 exists inp, nth_error checks (k - i) = Some inp /\
                             entry_of data k inp l)
              (triggering_from i checks) new.
Proof.
  induction checks as [|inp rest IH]; intros i s s' H; simpl in H.
  - injection H as <-. exists []. rewrite app_nil_r. split; constructor.
  - destruct (flareloop_check_if_value_surpassed s inp) as [s1|] eqn:E1;
      simpl in H; [|discriminate].
    apply flareloop_check_cases in E1 as (Hlist & Htrig & Hfields).
    assert (Hshift : forall l0,
              Forall2 (fun k l =>
                         S i <= k /\
                         exists inp0, nth_error rest (k - S i) = Some inp0 /\
                                      entry_of data k inp0 l)
                      (triggering_from (S i) rest) l0 ->
              Forall2 (fun k l =>
                         i <= k /\
                         exists inp0,
                           nth_error (inp :: rest) (k - i) = Some inp0 /\
                           entry_of data k inp0 l)
                      (triggering_from (S i) rest) l0).
    { apply Forall2_impl. intros k l (Hk & inp0 & Hn & He).
      split; [lia|]. exists inp0. split; [|exact He].
      replace (k - i) with (S (k - S i)) by lia. exact Hn. }
    simpl. rewrite <- Htrig.
    destruct (triggered_bool s1) eqn:Et.
    + destruct (calculate_observed_xrsb_and_cancellation data s1 i)
        as [s2|] eqn:E2; simpl in H; [|discriminate].
      apply calculate_inv in E2
        as (fl & l & Hfl & Hl & Hnum & Hid & Hobs & Htime & Hcan).
      destruct (Hfields eq_refl) as (t & r & Hchk & Hti & Hst & Hen).
      destruct (IH _ _ _ H) as (new & Hnew & Hall).
      exists (l :: new). split.
      * rewrite Hnew, Hl, Hlist, <- app_assoc. reflexivity.
      * constructor; [|apply Hshift, Hall].
        split; [lia|]. exists inp. rewrite Nat.sub_diag.
        split; [reflexivity|].
        exists fl, t, r, s1. subst t. repeat split; assumption.
    + simpl in H. destruct (IH _ _ _ H) as (new & Hnew & Hall).
      exists new. split; [now rewrite Hnew, Hlist | apply Hshift, Hall].
Qed.

Lemma Forall2_map_eq {A B : Type} (R : A -> B -> Prop) (f : B -> A)
  (l1 : list A) (l2 : list B) :
  (forall a b, R a b -> f b = a) ->
  Forall2 R l1 l2 -> map f l2 = l1.
Proof.
  intros Hf H. induction H as [|a b l1 l2 Hab _ IH]; simpl; [reflexivity|].
  now rewrite (Hf a b Hab), IH.
Qed.

Lemma Forall2_Forall_r {A B : Type} (R : A -> B -> Prop) (P : B -> Prop)
  (l1 : list A) (l2 : list B) :
  (forall a b, R a b -> P b) ->
  Forall2 R l1 l2 -> Forall P l2.
Proof.
  intros Hp H. induction H as [|a b l1 l2 Hab _ IH]; constructor; eauto.
Qed.

(** X6.  The flare loop keeps the entries it was given and appends exactly
    one entry for each flare whose check triggers, in archive order, and none
    for the others.  The entry carries the number and the identifier of its
    flare and the timestamp at the first index that the check reported. *)
Theorem loop_appends_one_entry_per_trigger (data : list flare)
  (checks : list trigger_input) (s s' : self) :
  loop_through_flares data checks s = Ok s' ->
  exists new,
    calculated_flarelist s' = calculated_flarelist s ++ new /\
    map Flare_Number new = triggering_from 0 checks /\
    Forall (fun l =>
              exists inp fl t r,
                nth_error checks (Flare_Number l) = Some inp /\
                nth_error data (Flare_Number l) = Some fl /\
                triggered_check inp = Ok (t :: r) /\
                Flare_ID l = flare_ID fl /\
                nth_error (time fl) t = Some (Trigger_Time l))
           new.
Proof.
  intros H. apply loop_from_entries in H as (new & Hnew & Hall).
  exists new. split; [exact Hnew|]. split.
  - revert Hall. apply Forall2_map_eq.
    intros k l (_ & inp & _ & fl & t & r & s1 & He). apply He.
  - revert Hall. apply Forall2_Forall_r.
    intros k l (_ & inp & Hn & fl & t & r & s1 & Hc & Hfl & _ & _ & _
                & Hnum & Hid & _ & Htime & _).
    rewrite Nat.sub_0_r in Hn. subst k.
    exists inp, fl, t, r. auto.
Qed.

Lemma loop_appends_one_entry_per_trigger_witness :
  exists s',
    loop_through_flares [Sample.trailing; Sample.flat 40 9%Z 300%Q; Sample.late]
      [Sample.xrsb_above_1 Sample.trailing;
       SingleChannel (xrsb (Sample.flat 40 9%Z 300%Q)) 5%Q;
       Sample.xrsb_above_1 Sample.late]
      fresh = Ok s' /\
    exists new,
      calculated_flarelist s' = [] ++ new /\
      map Flare_Number new = [0; 2] /\
      Forall (fun l =>
                exists inp fl t r,
                  nth_error [Sample.xrsb_above_1 Sample.trailing;
                             SingleChannel (xrsb (Sample.flat 40 9%Z 300%Q)) 5%Q;
                             Sample.xrsb_above_1 Sample.late]
                            (Flare_Number l) = Some inp /\
                  nth_error [Sample.trailing; Sample.flat 40 9%Z 300%Q;
                             Sample.late] (Flare_Number l) = Some fl /\
                  triggered_check inp = Ok (t :: r) /\
                  Flare_ID l = flare_ID fl /\
                  nth_error (time fl) t = Some (Trigger_Time l))
             new.
Proof.
  eexists. split; [reflexivity|].
  apply (loop_appends_one_entry_per_trigger
           [Sample.trailing; Sample.flat 40 9%Z 300%Q; Sample.late]
           [Sample.xrsb_above_1 Sample.trailing;
            SingleChannel (xrsb (Sample.flat 40 9%Z 300%Q)) 5%Q;
            Sample.xrsb_above_1 Sample.late]
           fresh).
  reflexivity.
Defined.

Lemma loop_from_same_list (data : list flare) (checks : list trigger_input) :
  forall i s1 s2,
    calculated_flarelist s1 = calculated_flarelist s2 ->
    match loop_from data i checks s1, loop_from data i checks s2 with
    | Ok a, Ok b => calculated_flarelist a = calculated_flarelist b
    | Raise e1, Raise e2 => e1 = e2
    | _, _ => False
    end.
Proof.
  induction checks as [|inp rest IH]; intros i s1 s2 Hs; simpl.
  - exact Hs.
  - unfold flareloop_check_if_value_surpassed.
    destruct (triggered_check inp) as [[|t r]|e]; simpl.
    + apply IH. simpl. exact Hs.
    + rewrite Hs.
      destruct (calculate_observed_xrsb_and_cancellation data _ i);
        simpl; [apply IH|]; reflexivity.
    + reflexivity.
Qed.

(** X7.  What the flare loop does depends on the flare list it starts from
    and on nothing else of the instance: the trigger index and the window
    bounds left behind by an earlier call are never read before they are set
    again.  Two instances with the same flare list end with the same flare
    list, or raise the same exception. *)
Theorem loop_ignores_stale_attributes (data : list flare)
  (checks : list trigger_input) (i : nat) (s1 s2 : self) :
  calculated_flarelist s1 = calculated_flarelist s2 ->
  match loop_from data i checks s1, loop_from data i checks s2 with
  | Ok a, Ok b => calculated_flarelist a = calculated_flarelist b
  | Raise e1, Raise e2 => e1 = e2
  | _, _ => False
  end.
Proof. apply loop_from_same_list. Qed.

Lemma loop_ignores_stale_attributes_witness :
  calculated_flarelist (Sample.triggered_at 3) = calculated_flarelist fresh /\
  match loop_from [Sample.late] 0 [Sample.xrsb_above_1 Sample.late]
          (Sample.triggered_at 3),
        loop_from [Sample.late] 0 [Sample.xrsb_above_1 Sample.late] fresh with
  | Ok a, Ok b => calculated_flarelist a = calculated_flarelist b
  | Raise e1, Raise e2 => e1 = e2
  | _, _ => False
  end.
Proof.
  split; [reflexivity|].
  apply (loop_ignores_stale_attributes [Sample.late]
           [Sample.xrsb_above_1 Sample.late] 0
           (Sample.triggered_at 3) fresh).
  reflexivity.
Defined.

(** ** The peak flag and the order of the timestamps *)

Lemma nondecreasing_ordered (l : list Q) :
  nondecreasing l = true ->
  forall i j a b,
    i <= j -> nth_error l i = Some a -> nth_error l j = Some b -> (a <= b)%Q.
Proof.
  induction l as [|a0 r IH]; intros Hnd i j a b Hij Ha Hb.
  - destruct i; discriminate.
  - assert (Hr : nondecreasing r = true).
    { destruct r as [|b0 r']; [reflexivity|]. simpl in Hnd.
      apply andb_true_iff in Hnd. apply Hnd. }
    destruct i as [|i], j as [|j]; simpl in Ha, Hb.
    + injection Ha as <-. injection Hb as <-. apply Qle_refl.
    + injection Ha as <-. destruct r as [|b0 r']; [destruct j; discriminate|].
      simpl in Hnd. apply andb_true_iff in Hnd as (H0 & _).
      apply Qle_bool_iff in H0. eapply Qle_trans; [exact H0|].
      apply (IH Hr 0 j b0 b); [lia | reflexivity | exact Hb].
    + lia.
    + apply (IH Hr i j a b); [lia | exact Ha | exact Hb].
Qed.

(** X8.  With timestamps that never decrease, a launch triggered at one of
    the first six samples (index 5 or less) is never flagged as having
    observed the peak: its window opens no later than the reference sample
    14. *)
Theorem early_trigger_never_observes_peak (data : list flare) (s s' : self)
  (i : nat) (fl : flare) (l : launch) :
  calculate_observed_xrsb_and_cancellation data s i = Ok s' ->
  nth_error data i = Some fl ->
  calculated_flarelist s' = calculated_flarelist s ++ [l] ->
  time_ordered fl ->
  hic_obs_start s = trigger_index s + 9 ->
  trigger_index s <= 5 ->
  Peak_Observed l <> Boolean true.
Proof.
  intros H Hfl Hl Hord Hstart Ht.
  apply calculate_inv in H as (fl' & l' & Hfl' & Hl' & _ & _ & Hobs & _ & _).
  assert (fl' = fl) as -> by congruence.
  assert (l' = l) as ->.
  { rewrite Hl' in Hl. apply app_inv_head in Hl. congruence. }
  destruct (observed_cases fl s) as [(_ & E) | (_ & m & _ & E)];
    rewrite E in Hobs.
  - injection Hobs as _ _ <-. discriminate.
  - destruct (peak_observed fl s) as [b|] eqn:Ep; simpl in Hobs;
      [|discriminate].
    injection Hobs as _ _ <-.
    apply peak_observed_Ok in Ep as (t14 & ts & H14 & Hs & ->).
    assert (Hle : (ts <= t14)%Q).
    { apply (Hord (hic_obs_start s) 14 ts t14); [lia | exact Hs | exact H14]. }
    assert (E14 : Qltb t14 ts = false).
    { apply not_true_iff_false. rewrite Qltb_lt. apply Qle_not_lt, Hle. }
    rewrite E14. discriminate.
Qed.

Lemma early_trigger_never_observes_peak_witness :
  exists s' l,
    calculate_observed_xrsb_and_cancellation
      [Sample.scenario_A] (Sample.triggered_at 5) 0 = Ok s' /\
    calculated_flarelist s' = [] ++ [l] /\
    nondecreasing (time Sample.scenario_A) = true /\
    Peak_Observed l <> Boolean true.
Proof.
  eexists. eexists. split; [reflexivity|]. split; [reflexivity|].
  split; [reflexivity|].
  exact (early_trigger_never_observes_peak [Sample.scenario_A]
           (Sample.triggered_at 5) _ 0 Sample.scenario_A _
           eq_refl eq_refl eq_refl
           (nondecreasing_ordered (time Sample.scenario_A) eq_refl)
           eq_refl (le_n 5)).
Defined.

(** X9.  With timestamps that never decrease, an entry flagged as having
    observed the peak was triggered strictly before the peak time of its
    flare. *)
Theorem peak_observed_implies_trigger_before_peak (data : list flare)
  (s s' : self) (i : nat) (fl : flare) (l : launch) :
  calculate_observed_xrsb_and_cancellation data s i = Ok s' ->
  nth_error data i = Some fl ->
  calculated_flarelist s' = calculated_flarelist s ++ [l] ->
  time_ordered fl ->
  trigger_index s <= hic_obs_start s ->
  Peak_Observed l = Boolean true ->
  (Trigger_Time l < peak_time fl)%Q.
Proof.
  intros H Hfl Hl Hord Hstart Hpeak.
  apply calculate_inv in H
    as (fl' & l' & Hfl' & Hl' & _ & _ & Hobs & Htime & _).
  assert (fl' = fl) as -> by congruence.
  assert (l' = l) as ->.
  { rewrite Hl' in Hl. apply app_inv_head in Hl. congruence. }
  destruct (observed_cases fl s) as [(_ & E) | (_ & m & _ & E)];
    rewrite E in Hobs.
  - injection Hobs as _ _ Hp. congruence.
  - destruct (peak_observed fl s) as [b|] eqn:Ep; simpl in Hobs;
      [|discriminate].
    injection Hobs as _ _ Hp.
    apply peak_observed_Ok in Ep as (t14 & ts & H14 & Hs & ->).
    rewrite Hpeak in Hp. injection Hp as Hp.
    apply andb_true_iff in Hp as (_ & Hlt). apply Qltb_lt in Hlt.
    eapply Qle_lt_trans; [|exact Hlt].
    apply (Hord (trigger_index s) (hic_obs_start s) _ _ Hstart Htime Hs).
Qed.

Lemma peak_observed_implies_trigger_before_peak_witness :
  exists s' l,
    calculate_observed_xrsb_and_cancellation
      [Sample.late] (Sample.triggered_at 10) 0 = Ok s' /\
    calculated_flarelist s' = [] ++ [l] /\
    Peak_Observed l = Boolean true /\
    (Trigger_Time l < peak_time Sample.late)%Q.
Proof.
  eexists. eexists. split; [reflexivity|]. split; [reflexivity|].
  split; [reflexivity|].
  exact (peak_observed_implies_trigger_before_peak [Sample.late]
           (Sample.triggered_at 10) _ 0 Sample.late _
           eq_refl eq_refl eq_refl
           (nondecreasing_ordered (time Sample.late) eq_refl)
           ltac:(simpl; lia) eq_refl).
Defined.

(** ** The metadata join: missing identifiers *)

(** X10.  The join of one row returns exactly when some record of the
    archive carries the identifier of the row; when none does, it raises
    [IndexError]. *)
Theorem join_raises_exactly_on_unknown_identifier (data : list flare) (v : Q)
  (l : launch) :
  ((exists fl, In fl data /\ flare_ID fl = Flare_ID l) ->
   exists fi, fitsinfo_of data v l = Ok fi) /\
  ((forall fl, In fl data -> flare_ID fl <> Flare_ID l) ->
   fitsinfo_of data v l = Raise IndexError).
Proof.
  split; [apply fitsinfo_of_found|].
  intros Hnone. unfold fitsinfo_of, launched_flare.
  assert (E : Np.np_where
                (map (fun fl => Z.eqb (Flare_ID l) (flare_ID fl)) data) = []).
  { apply where_from_nil. apply Forall_forall. intros b Hb.
    apply in_map_iff in Hb as (fl & <- & Hin).
    apply Z.eqb_neq. intros Heq. apply (Hnone fl Hin). now symmetry. }
  rewrite E. reflexivity.
Qed.

(** X11.  The long-duration flag of a joined row is [nan] exactly when no
    timestamp of the record equals its peak time.  When the first timestamp
    equal to the peak time has fewer than 20 samples after it and the peak
    flux is not negative, the flag is false. *)
Theorem long_duration_unknown_or_out_of_range (data : list flare) (v : Q)
  (l : launch) (fi : fitsinfo) :
  fitsinfo_of data v l = Ok fi ->
  exists k fl,
    first_match data (Flare_ID l) k /\
    nth_error data k = Some fl /\
    (LongDuration fi = Nan <->
     forall t, In t (time fl) -> ~ (t == peak_time fl)%Q) /\
    (forall p t,
       nth_error (time fl) p = Some t -> (t == peak_time fl)%Q ->
       (forall j u, j < p -> nth_error (time fl) j = Some u ->
                    ~ (u == peak_time fl)%Q) ->
       length (time fl) <= p + 20 ->
       (0 <= peak_flux fl)%Q ->
       LongDuration fi = Boolean false).
Proof.
  intros H. apply fitsinfo_of_inv in H as (k & fl & Hk & Hfl & _ & _ & Hld).
  exists k, fl. split; [exact Hk|]. split; [exact Hfl|].
  destruct (Np.np_where (map (fun t => Qeq_bool t (peak_time fl)) (time fl)))
    as [|p0 r] eqn:E.
  - split.
    + split; [|intros _; exact Hld].
      intros _ t Ht Heq. apply In_nth_error in Ht as (j & Hj).
      apply (np_where_nil _ E j). rewrite nth_error_map, Hj. simpl.
      f_equal. now apply Qeq_bool_iff.
    + intros p t Hp Heq _ _ _. exfalso.
      apply (np_where_nil _ E p). rewrite nth_error_map, Hp. simpl.
      f_equal. now apply Qeq_bool_iff.
  - pose proof (np_where_head _ _ _ E) as (Hat & Hbefore).
    destruct Hld as (final_flux & Hff & Hld). split.
    + split; [rewrite Hld; discriminate|].
      intros Hnone. exfalso.
      apply nth_error_map_true in Hat as (t & Ht & Heq).
      apply (Hnone t); [eapply nth_error_In; exact Ht|].
      now apply Qeq_bool_iff.
    + intros p t Hp Heq Hfirst Hlen Hpos.
      assert (p0 = p) as ->.
      { destruct (Nat.lt_trichotomy p0 p) as [Hlt | [-> | Hgt]];
          [|reflexivity|].
        - exfalso. apply nth_error_map_true in Hat as (u & Hu & Hueq).
          apply (Hfirst p0 u Hlt Hu). now apply Qeq_bool_iff.
        - exfalso. apply Hbefore in Hgt.
          rewrite nth_error_map, Hp in Hgt. simpl in Hgt.
          injection Hgt as Hgt. apply Qeq_bool_iff in Heq. congruence. }
      apply Nat.leb_le in Hlen. rewrite Hlen in Hff. subst final_flux.
      rewrite Hld. f_equal. apply not_true_iff_false. rewrite Qgtb_lt.
      apply Qle_not_lt. apply Qmult_le_0_compat; [exact Hpos | discriminate].
Qed.

Lemma long_duration_unknown_or_out_of_range_witness :
  exists l fi,
    loop_through_flares [Sample.late] [Sample.xrsb_above_1 Sample.late] fresh
      = Ok {| triggered_bool := true; trigger_index := 10;
              hic_obs_start := 19; hic_obs_end := 25;
              calculated_flarelist := [l] |} /\
    fitsinfo_of [Sample.late] 1%Q l = Ok fi /\
    LongDuration fi = Boolean false /\
    exists k fl,
      first_match [Sample.late] (Flare_ID l) k /\
      nth_error [Sample.late] k = Some fl /\
      (LongDuration fi = Nan <->
       forall t, In t (time fl) -> ~ (t == peak_time fl)%Q) /\
      (forall p t,
         nth_error (time fl) p = Some t -> (t == peak_time fl)%Q ->
         (forall j u, j < p -> nth_error (time fl) j = Some u ->
                      ~ (u == peak_time fl)%Q) ->
         length (time fl) <= p + 20 ->
         (0 <= peak_flux fl)%Q ->
         LongDuration fi = Boolean false).
Proof.
  eexists. eexists. split; [reflexivity|].
  match goal with
  | |- ?hyp /\ _ => assert (H : hyp) by reflexivity
  end.
  split; [exact H|]. split; [reflexivity|].
  exact (long_duration_unknown_or_out_of_range _ _ _ _ H).
Defined.

Lemma join_raises_exactly_on_unknown_identifier_witness :
  (exists fi,
     fitsinfo_of [Sample.late; Sample.brief] 1%Q
       {| Flare_Number := 1; Flare_ID := 13; Cancelled := Nan;
          Trigger_Time := 0; Peak_Observed := Nan; Max_HiC := Nan;
          Mean_HiC := Nan |} = Ok fi) /\
  fitsinfo_of [Sample.late; Sample.brief] 1%Q
    {| Flare_Number := 1; Flare_ID := 99; Cancelled := Nan;
       Trigger_Time := 0; Peak_Observed := Nan; Max_HiC := Nan;
       Mean_HiC := Nan |} = Raise IndexError.
Proof.
  split.
  - apply (proj1 (join_raises_exactly_on_unknown_identifier _ _ _)).
    exists Sample.brief. split; [right; now left | reflexivity].
  - apply (proj2 (join_raises_exactly_on_unknown_identifier _ _ _)).
    intros fl [<- | [<- | []]]; discriminate.
Defined.

(** ** The table of one configuration *)

(** The entries of a loop that started from an empty flare list. *)
Lemma loop_entries_from_empty (data : list flare) (checks : list trigger_input)
  (s s1 : self) :
  loop_through_flares data checks s = Ok s1 ->
  calculated_flarelist s = [] ->
  map Flare_Number (calculated_flarelist s1) = triggering_from 0 checks /\
  Forall (fun l => exists inp,
                     nth_error checks (Flare_Number l) = Some inp /\
                     entry_of data (Flare_Number l) inp l)
         (calculated_flarelist s1).
Proof.
  intros H Hs. apply loop_from_entries in H as (new & Hnew & Hall).
  rewrite Hs in Hnew. simpl in Hnew. rewrite Hnew. split.
  - revert Hall. apply Forall2_map_eq.
    intros k l (_ & inp & _ & fl & t & r & s0 & He). apply He.
  - revert Hall. apply Forall2_Forall_r.
    intros k l (_ & inp & Hn & He).
    assert (Flare_Number l = k) as ->.
    { destruct He as (fl & t & r & s0 & He). apply He. }
    rewrite Nat.sub_0_r in Hn. eauto.
Qed.

Lemma run_parameter_inv (data : list flare) (v : Q)
  (checks : list trigger_input) (s : self) (df : list row) :
  run_parameter data v checks s = Ok (Some df) ->
  exists s1 joined unfiltered,
    loop_through_flares data checks s = Ok s1 /\
    save_fitsinfo_to_df data v (calculated_flarelist s1) = Ok joined /\
    map (fun r => (entry r, info r)) unfiltered = joined /\
    df = drop_na unfiltered.
Proof.
  unfold run_parameter.
  destruct (loop_through_flares data checks s) as [s1|] eqn:E1; simpl;
    [|discriminate].
  destruct (0 <? length (calculated_flarelist s1)); [|discriminate].
  unfold perform_postloop_functions, save_flarelist_to_df.
  destruct (save_fitsinfo_to_df data v (calculated_flarelist s1))
    as [joined|] eqn:E2; simpl; [|discriminate].
  intros H. injection H as <-.
  exists s1, joined. eexists.
  split; [reflexivity|]. split; [exact E2|]. split; [|reflexivity].
  rewrite map_map. simpl. clear. induction joined as [|[l fi] j IH];
    simpl; [reflexivity | now rewrite IH].
Qed.

(** Every row of the table of a configuration is a filtered, joined entry
    of the flare loop. *)
Lemma run_parameter_rows (data : list flare) (v : Q)
  (checks : list trigger_input) (s : self) (df : list row) :
  run_parameter data v checks s = Ok (Some df) ->
  calculated_flarelist s = [] ->
  Forall (fun r =>
            known r /\
            fitsinfo_of data v (entry r) = Ok (info r) /\
            exists inp,
              nth_error checks (Flare_Number (entry r)) = Some inp /\
              entry_of data (Flare_Number (entry r)) inp (entry r))
         df.
Proof.
  intros H Hs.
  apply run_parameter_inv in H as (s1 & joined & unf & Hloop & Hj & Hmap & ->).
  apply (loop_entries_from_empty _ _ _ _ Hloop) in Hs as (_ & Hentries).
  apply save_fitsinfo_inv in Hj as (Hfst & Hfi).
  apply Forall_forall. intros r Hr. apply drop_na_keeps in Hr as (Hin & Hk).
  assert (Hpair : In (entry r, info r) joined).
  { rewrite <- Hmap. apply (in_map (fun r => (entry r, info r))), Hin. }
  split; [exact Hk|]. split; [apply Hfi, Hpair|].
  rewrite Forall_forall in Hentries. apply Hentries.
  rewrite <- Hfst. apply (in_map fst) in Hpair. exact Hpair.
Qed.

Lemma entry_known_window (data : list flare) (k : nat) (inp : trigger_input)
  (l : launch) :
  entry_of data k inp l ->
  Max_HiC l <> Nan ->
  exists fl t r,
    nth_error data k = Some fl /\
    triggered_check inp = Ok (t :: r) /\
    t + 9 < length (xrsb fl) /\
    cancellation fl (Sample.triggered_at t) = Ok (Cancelled l) /\
    exists m a b,
      Max_HiC l = Float m /\ Mean_HiC l = Float a /\
      Peak_Observed l = Boolean b.
Proof.
  intros (fl & t & r & s1 & Hc & Hfl & Ht & Hst & Hen & _ & _ & Hobs & _ & Hcan)
         Hmax.
  exists fl, t, r. split; [exact Hfl|]. split; [exact Hc|].
  destruct (observed_cases fl s1) as [(_ & E) | (Hne & m & _ & E)];
    rewrite E in Hobs.
  - injection Hobs as Hm _ _. congruence.
  - destruct (peak_observed fl s1) as [b|]; simpl in Hobs; [|discriminate].
    injection Hobs as Hm Ha Hb. split; [|split].
    + destruct (Nat.lt_ge_cases (t + 9) (length (xrsb fl))) as [Hlt | Hge];
        [exact Hlt|].
      exfalso. apply Hne. unfold window. apply slice_nil_iff. right. lia.
    + unfold cancellation in *. simpl. rewrite Ht in Hcan. exact Hcan.
    + exists m, (Np.mean (window fl s1)), b. auto.
Qed.



(** X13.  When [xrsa] and [xrsb] have the same length in every flare, every
    row of the table of a configuration has a boolean cancellation flag: a
    window that holds a sample lies past the look-ahead sample. *)
Theorem final_table_cancellation_known (data : list flare) (v : Q)
  (checks : list trigger_input) (s : self) (df : list row) :
  run_parameter data v checks s = Ok (Some df) ->
  calculated_flarelist s = [] ->
  (forall fl, In fl data -> length (xrsa fl) = length (xrsb fl)) ->
  Forall (fun r => exists b, Cancelled (entry r) = Boolean b) df.
Proof.
  intros H Hs Hal. pose proof (run_parameter_rows _ _ _ _ _ H Hs) as Hrows.
  revert Hrows. apply Forall_impl.
  intros r ((Hmax & _) & _ & inp & _ & He).
  destruct (entry_known_window _ _ _ _ He Hmax)
    as (fl & t & r0 & Hfl & _ & Hwin & Hcan & _).
  apply nth_error_In in Hfl. apply Hal in Hfl.
  destruct (cancellation_cases fl (Sample.triggered_at t))
    as [(Hlen & _) | (_ & a & b & _ & _ & E)].
  - simpl in Hlen. lia.
  - rewrite E in Hcan. injection Hcan as <-. eauto.
Qed.

Lemma final_table_cancellation_known_witness :
  exists df,
    run_parameter [Sample.trailing; Sample.late] 1%Q
      [Sample.xrsb_above_1 Sample.trailing; Sample.xrsb_above_1 Sample.late]
      fresh = Ok (Some df) /\
    calculated_flarelist fresh = [] /\
    (forall fl, In fl [Sample.trailing; Sample.late] ->
                length (xrsa fl) = length (xrsb fl)) /\
    Forall (fun r => exists b, Cancelled (entry r) = Boolean b) df.
Proof.
  eexists.
  match goal with
  | |- ?hyp /\ _ => assert (H : hyp) by (vm_compute; reflexivity)
  end.
  assert (Hal : forall fl, In fl [Sample.trailing; Sample.late] ->
                           length (xrsa fl) = length (xrsb fl)).
  { intros fl [<- | [<- | []]]; reflexivity. }
  split; [exact H|]. split; [reflexivity|]. split; [exact Hal|].
  exact (final_table_cancellation_known _ _ _ _ _ H eq_refl Hal).
Defined.

(** X14.  When no two records of the archive share an identifier, every
    row of the table of a configuration is joined to its own flare: the record
    at the position [Flare_Number] of the row. *)
Theorem join_finds_own_record (data : list flare) (v : Q)
  (checks : list trigger_input) (s : self) (df : list row) :
  run_parameter data v checks s = Ok (Some df) ->
  calculated_flarelist s = [] ->
  NoDup (map flare_ID data) ->
  Forall (fun r => exists fl,
                     nth_error data (Flare_Number (entry r)) = Some fl /\
                     joined_from fl (info r))
         df.
Proof.
  intros H Hs Hnd. pose proof (run_parameter_rows _ _ _ _ _ H Hs) as Hrows.
  revert Hrows. apply Forall_impl.
  intros r (_ & Hfi & inp & _ & fl & t & r0 & s1 & _ & Hfl & _ & _ & _ & _
            & Hid & _).
  apply fitsinfo_of_inv in Hfi as (k & fl' & Hk & Hfl' & Hj & _).
  destruct Hk as ((fl'' & Hfl'' & Hid'') & _).
  assert (fl'' = fl') as -> by congruence.
  assert (k = Flare_Number (entry r)) as ->.
  { rewrite NoDup_nth_error in Hnd. apply Hnd.
    - rewrite length_map. apply nth_error_Some. congruence.
    - rewrite !nth_error_map, Hfl, Hfl'. simpl. congruence. }
  exists fl. split; [exact Hfl|]. congruence.
Qed.

Lemma join_finds_own_record_witness :
  exists df,
    run_parameter [Sample.trailing; Sample.late; Sample.brief] 1%Q
      [Sample.xrsb_above_1 Sample.trailing; Sample.xrsb_above_1 Sample.late;
       Sample.xrsb_above_1 Sample.brief]
      fresh = Ok (Some df) /\
    calculated_flarelist fresh = [] /\
    NoDup (map flare_ID [Sample.trailing; Sample.late; Sample.brief]) /\
    Forall (fun r => exists fl,
                       nth_error [Sample.trailing; Sample.late; Sample.brief]
                                 (Flare_Number (entry r)) = Some fl /\
                       joined_from fl (info r))
           df.
Proof.
  eexists.
  match goal with
  | |- ?hyp /\ _ => assert (H : hyp) by (vm_compute; reflexivity)
  end.
  assert (Hnd : NoDup (map flare_ID
                         [Sample.trailing; Sample.late; Sample.brief])).
  { simpl. repeat constructor; simpl; intuition discriminate. }
  split; [exact H|]. split; [reflexivity|]. split; [exact Hnd|].
  exact (join_finds_own_record _ _ _ _ _ H eq_refl Hnd).
Defined.

Lemma triggering_from_sorted (checks : list trigger_input) :
  forall i,
    Forall (le i) (triggering_from i checks) /\
    StronglySorted lt (triggering_from i checks).
Proof.
  induction checks as [|inp rest IH]; intros i; simpl.
  - split; constructor.
  - destruct (IH (S i)) as (Hge & Hsorted).
    assert (Hge' : Forall (le i) (triggering_from (S i) rest)).
    { revert Hge. apply Forall_impl. intros k Hk. lia. }
    destruct (triggers inp).
    + split; constructor; auto.
    + split; assumption.
Qed.

Lemma filter_map_sorted {A : Type} (g : A -> nat) (f : A -> bool) (l : list A) :
  StronglySorted lt (map g l) -> StronglySorted lt (map g (filter f l)).
Proof.
  induction l as [|a l IH]; simpl; intros H; [constructor|].
  apply StronglySorted_inv in H as (Hs & Ha).
  destruct (f a); simpl; [|apply IH, Hs].
  constructor; [apply IH, Hs|].
  rewrite Forall_forall in *. intros x Hx. apply Ha.
  apply in_map_iff in Hx as (y & <- & Hy). apply filter_In in Hy as (Hy & _).
  apply in_map, Hy.
Qed.

(** X15.  The rows of the table of a configuration are in archive order:
    their flare numbers strictly increase, so no flare has two rows. *)
Theorem final_table_in_archive_order (data : list flare) (v : Q)
  (checks : list trigger_input) (s : self) (df : list row) :
  run_parameter data v checks s = Ok (Some df) ->
  calculated_flarelist s = [] ->
  StronglySorted lt (map (fun r => Flare_Number (entry r)) df).
Proof.
  intros H Hs.
  apply run_parameter_inv in H as (s1 & joined & unf & Hloop & Hj & Hmap & ->).
  apply (loop_entries_from_empty _ _ _ _ Hloop) in Hs as (Hnum & _).
  apply save_fitsinfo_inv in Hj as (Hfst & _).
  unfold drop_na. apply filter_map_sorted.
  assert (E : map (fun r => Flare_Number (entry r)) unf
              = triggering_from 0 checks).
  { rewrite <- Hnum, <- Hfst, <- Hmap, !map_map. reflexivity. }
  rewrite E. apply triggering_from_sorted.
Qed.

Lemma final_table_in_archive_order_witness :
  exists df,
    run_parameter [Sample.late; Sample.trailing; Sample.brief] 1%Q
      [Sample.xrsb_above_1 Sample.late; Sample.xrsb_above_1 Sample.trailing;
       Sample.xrsb_above_1 Sample.brief]
      fresh = Ok (Some df) /\
    calculated_flarelist fresh = [] /\
    map (fun r => Flare_Number (entry r)) df = [0; 2] /\
    StronglySorted lt (map (fun r => Flare_Number (entry r)) df).
Proof.
  eexists.
  match goal with
  | |- ?hyp /\ _ => assert (H : hyp) by (vm_compute; reflexivity)
  end.
  split; [exact H|]. split; [reflexivity|]. split; [reflexivity|].
  exact (final_table_in_archive_order _ _ _ _ _ H eq_refl).
Defined.



(** ** The sweep over the grid *)

Import Sweep.

Lemma postloop_same_list (d : list flare) (v : Q) (s1 s2 : self) :
  calculated_flarelist s1 = calculated_flarelist s2 ->
  perform_postloop_functions d v s1 = perform_postloop_functions d v s2.
Proof.
  unfold perform_postloop_functions, save_flarelist_to_df. now intros ->.
Qed.

(** One configuration on two instances with an empty flare list: the same
    file or the same exception, and an empty flare list afterwards. *)
Lemma one_parameter_same (c : instance) (parameter : parameter) (s1 s2 : self) :
  calculated_flarelist s1 = [] ->
  calculated_flarelist s2 = [] ->
  match one_parameter c s1 parameter, one_parameter c s2 parameter with
  | inl (a, w1), inl (b, w2) =>
      w1 = w2 /\ calculated_flarelist a = [] /\ calculated_flarelist b = []
  | inr e1, inr e2 => e1 = e2
  | _, _ => False
  end.
Proof.
  intros H1 H2. unfold one_parameter.
  destruct (parameter_savestring parameter) as [ps|]; [|reflexivity].
  unfold loop_through_flares.
  pose proof (loop_from_same_list (data c)
                (map (fun arrays => MultiChannel arrays ps) (param_arrays c))
                0 s1 s2) as Hsame.
  rewrite H1, H2 in Hsame. specialize (Hsame eq_refl).
  destruct (loop_from (data c) 0 _ s1) as [a|e1],
           (loop_from (data c) 0 _ s2) as [b|e2];
    try contradiction; [|now subst].
  rewrite <- Hsame, (postloop_same_list _ _ b a) by (now symmetry).
  destruct (0 <? length (calculated_flarelist a)) eqn:El.
  - destruct (perform_postloop_functions (data c) (success_flux_value c) a);
      [|reflexivity].
    destruct (save_param_combo_info c ps); [|reflexivity].
    simpl. auto.
  - apply Nat.ltb_ge in El.
    assert (Ha : calculated_flarelist a = []).
    { destruct (calculated_flarelist a); [reflexivity | simpl in El; lia]. }
    repeat split; [exact Ha | congruence].
Qed.

Lemma sweep_each_alone (c : instance) (grid : list parameter) :
  forall s,
    calculated_flarelist s = [] ->
    loop_through_parameters c grid s = each_alone c grid.
Proof.
  induction grid as [|parameter rest IH]; intros s Hs; simpl; [reflexivity|].
  pose proof (one_parameter_same c parameter s fresh Hs eq_refl) as Hsame.
  destruct (one_parameter c s parameter) as [[a w1]|e1],
           (one_parameter c fresh parameter) as [[b w2]|e2];
    try contradiction; [|now subst].
  destruct Hsame as (-> & Ha & _). rewrite (IH a Ha). reflexivity.
Qed.

(** X17.  The configurations of a sweep do not influence one another: a
    sweep that starts with an empty flare list writes the files, and ends
    with the exception if any, that result from running every configuration
    on an instance of its own, stopping at the first one that raises. *)
Theorem sweep_configurations_are_independent (c : instance)
  (grid : list parameter) (s : self) :
  calculated_flarelist s = [] ->
  loop_through_parameters c grid s = each_alone c grid.
Proof. apply sweep_each_alone. Qed.

Lemma sweep_configurations_are_independent_witness :
  calculated_flarelist (Sample.triggered_at 3) = [] /\
  loop_through_parameters Run.archive Run.grid (Sample.triggered_at 3)
  = each_alone Run.archive Run.grid /\
  map savestring (fst (each_alone Run.archive Run.grid))
  = [[2; 3]; [3; 4]]%Q.
Proof.
  split; [reflexivity|]. split; [|vm_compute; reflexivity].
  apply (sweep_configurations_are_independent
           Run.archive Run.grid (Sample.triggered_at 3)).
  reflexivity.
Defined.

Lemma sweep_app (c : instance) (before after : list parameter) :
  forall s,
    calculated_flarelist s = [] ->
    loop_through_parameters c (before ++ after) s =
    match loop_through_parameters c before s with
    | (files, Some e) => (files, Some e)
    | (files, None) =>
        let (files', e) := each_alone c after in (files ++ files', e)
    end.
Proof.
  induction before as [|parameter rest IH]; intros s Hs; simpl.
  - rewrite (sweep_each_alone c after s Hs). now destruct (each_alone c after).
  - pose proof (one_parameter_same c parameter s s Hs Hs) as Hsame.
    destruct (one_parameter c s parameter) as [[a w]|e]; [|reflexivity].
    destruct Hsame as (_ & Ha & _). rewrite (IH a Ha).
    destruct (loop_through_parameters c rest a) as [files [e|]];
      [reflexivity|].
    destruct (each_alone c after) as [files' e']. now destruct w.
Qed.

(** X18.  A scalar in the grid ends the sweep: building the file name
    iterates over the parameter, and a scalar is not iterable.  If the
    configurations before it completed, the sweep ends with [TypeError],
    having written their files and nothing else. *)
Theorem scalar_parameter_aborts_sweep (c : instance)
  (before after : list parameter) (p : Q) (s : self) (files : list saved) :
  calculated_flarelist s = [] ->
  loop_through_parameters c before s = (files, None) ->
  loop_through_parameters c (before ++ Scalar p :: after) s
  = (files, Some TypeError).
Proof.
  intros Hs Hb.
  rewrite (sweep_app c before (Scalar p :: after) s Hs), Hb. simpl.
  now rewrite app_nil_r.
Qed.

Lemma scalar_parameter_aborts_sweep_witness :
  exists files,
    calculated_flarelist fresh = [] /\
    loop_through_parameters Run.archive Run.grid fresh = (files, None) /\
    length files = 2 /\
    loop_through_parameters Run.archive
      (Run.grid ++ Scalar 1 :: [Combination [2; 3]%Q]) fresh
    = (files, Some TypeError).
Proof.
  eexists. split; [reflexivity|].
  match goal with
  | |- ?hyp /\ _ => assert (H : hyp) by (vm_compute; reflexivity)
  end.
  split; [exact H|]. split; [reflexivity|].
  exact (scalar_parameter_aborts_sweep Run.archive Run.grid
           [Combination [2; 3]%Q] 1 fresh _ eq_refl H).
Defined.

Lemma loop_without_trigger (d : list flare) (checks : list trigger_input) :
  forall i s,
    (forall inp, In inp checks -> triggered_check inp = Ok []) ->
    exists s', loop_from d i checks s = Ok s' /\
               calculated_flarelist s' = calculated_flarelist s.
Proof.
  induction checks as [|inp rest IH]; intros i s Hnone; simpl; [eauto|].
  unfold flareloop_check_if_value_surpassed.
  rewrite (Hnone inp (or_introl eq_refl)). simpl.
  destruct (IH (S i)
              {| triggered_bool := false;
                 trigger_index := trigger_index s;
                 hic_obs_start := hic_obs_start s;
                 hic_obs_end := hic_obs_end s;
                 calculated_flarelist := calculated_flarelist s |})
    as (s' & -> & Hs').
  - intros inp' Hin. apply Hnone. now right.
  - eauto.
Qed.

(** X19.  A configuration on which no flare triggers writes no file and
    does not disturb the sweep, whatever the parameter names and units are:
    the sweep goes on as if the configuration were not in the grid. *)
Theorem configuration_without_trigger_is_skipped (c : instance)
  (ps : list Q) (rest : list parameter) (s : self) :
  calculated_flarelist s = [] ->
  (forall arrays, In arrays (param_arrays c) ->
                  triggered_check (MultiChannel arrays ps) = Ok []) ->
  loop_through_parameters c (Combination ps :: rest) s
  = loop_through_parameters c rest s.
Proof.
  intros Hs Hnone. simpl. unfold one_parameter. simpl.
  destruct (loop_without_trigger (data c)
              (map (fun arrays => MultiChannel arrays ps) (param_arrays c))
              0 s) as (s' & Hloop & Hs').
  { intros inp Hin. apply in_map_iff in Hin as (arrays & <- & Hin).
    apply Hnone, Hin. }
  unfold loop_through_flares. rewrite Hloop, Hs', Hs. simpl.
  rewrite (sweep_each_alone c rest s') by congruence.
  rewrite (sweep_each_alone c rest s Hs).
  now destruct (each_alone c rest).
Qed.

Lemma configuration_without_trigger_is_skipped_witness :
  calculated_flarelist fresh = [] /\
  (forall arrays, In arrays (param_arrays Run.archive) ->
                  triggered_check (MultiChannel arrays [100; 100]%Q) = Ok []) /\
  loop_through_parameters Run.archive
    (Combination [100; 100]%Q :: [Combination [3; 4]%Q]) fresh
  = loop_through_parameters Run.archive [Combination [3; 4]%Q] fresh.
Proof.
  assert (H : forall arrays, In arrays (param_arrays Run.archive) ->
                triggered_check (MultiChannel arrays [100; 100]%Q) = Ok []).
  { intros arrays [<- | [<- | [<- | []]]]; reflexivity. }
  split; [reflexivity|]. split; [exact H|].
  exact (configuration_without_trigger_is_skipped Run.archive [100; 100]%Q
           [Combination [3; 4]%Q] fresh eq_refl H).
Defined.

Lemma combo_from_returns (key : string) (ps : list Q) (units : list string)
  (names : list string) :
  forall i cols,
    Forall (fun n => is_label key n || is_label key (n ++ "_units") = false)
           names ->
    i + length names <= length ps ->
    i + length names <= length units ->
    exists cols', combo_from key i names ps units cols = Ok cols'.
Proof.
  induction names as [|n rest IH]; intros i cols Hlab Hps Hun; simpl;
    [eauto|].
  apply Forall_cons_iff in Hlab as (Hn & Hrest). rewrite Hn.
  simpl in Hps, Hun.
  destruct (getitem_in_range ps i) as (v & ->); [lia|].
  destruct (getitem_in_range units i) as (u & ->); [lia|]. simpl.
  apply IH; [exact Hrest | lia | lia].
Qed.

Lemma combo_from_raises (key : string) (ps : list Q) (units : list string)
  (names : list string) :
  forall i cols,
    Forall (fun n => is_label key n || is_label key (n ++ "_units") = false)
           names ->
    i <= length ps -> i <= length units ->
    length ps < i + length names \/ length units < i + length names ->
    combo_from key i names ps units cols = Raise IndexError.
Proof.
  induction names as [|n rest IH]; intros i cols Hlab Hi Hi' Hshort; simpl.
  - simpl in Hshort. lia.
  - apply Forall_cons_iff in Hlab as (Hn & Hrest). rewrite Hn.
    simpl in Hshort.
    destruct (Nat.le_gt_cases (length ps) i) as [Hps | Hps].
    { rewrite (getitem_out_of_range ps i Hps). reflexivity. }
    destruct (getitem_in_range ps i Hps) as (v & ->). simpl.
    destruct (Nat.le_gt_cases (length units) i) as [Hun | Hun].
    { rewrite (getitem_out_of_range units i Hun). reflexivity. }
    destruct (getitem_in_range units i Hun) as (u & ->). simpl.
    apply IH; [exact Hrest | lia | lia | lia].
Qed.

(** X20.  For parameter names that are not labels of the table:
    [save_param_combo_info] returns when there are at least as many thresholds
    and as many units as names (further thresholds are not recorded), and
    raises [IndexError] when the thresholds or the units are fewer than the
    names. *)
Theorem combo_info_needs_value_and_unit_per_name (c : instance) (ps : list Q) :
  Forall (fun n => is_label (success_flux_key c) n
                   || is_label (success_flux_key c) (n ++ "_units") = false)
         (param_names c) ->
  (length (param_names c) <= length ps ->
   length (param_names c) <= length (param_units c) ->
   exists cols, save_param_combo_info c ps = Ok cols) /\
  (length ps < length (param_names c) \/
   length (param_units c) < length (param_names c) ->
   save_param_combo_info c ps = Raise IndexError).
Proof.
  intros Hlab. unfold save_param_combo_info. split.
  - intros Hps Hun. apply combo_from_returns; simpl; assumption.
  - intros Hshort. apply combo_from_raises; simpl; try assumption; lia.
Qed.

Lemma combo_info_needs_value_and_unit_per_name_witness :
  Forall (fun n => is_label (success_flux_key Run.archive) n
                   || is_label (success_flux_key Run.archive) (n ++ "_units")
                   = false)
         (param_names Run.archive) /\
  (exists cols, save_param_combo_info Run.archive [2; 3; 7]%Q = Ok cols) /\
  save_param_combo_info Run.archive [2]%Q = Raise IndexError.
Proof.
  assert (H : Forall (fun n => is_label (success_flux_key Run.archive) n
                               || is_label (success_flux_key Run.archive)
                                    (n ++ "_units") = false)
                     (param_names Run.archive)).
  { repeat constructor. }
  split; [exact H|].
  destruct (combo_info_needs_value_and_unit_per_name Run.archive [2; 3; 7]%Q H)
    as (Hret & _).
  destruct (combo_info_needs_value_and_unit_per_name Run.archive [2]%Q H)
    as (_ & Hraise).
  split; [apply Hret; simpl; lia | apply Hraise; simpl; lia].
Defined.





(** ** The parameter columns *)

Lemma get_set_cell_same (cols : list (string * combo_cell)) (label : string)
  (cell : combo_cell) :
  get_cell (set_cell cols label cell) label = Some cell.
Proof.
  induction cols as [|[l0 c0] rest IH]; simpl.
  - now rewrite String.eqb_refl.
  - destruct (String.eqb l0 label) eqn:E; simpl; rewrite E; auto.
Qed.

Lemma get_set_cell_other (cols : list (string * combo_cell))
  (label label' : string) (cell : combo_cell) :
  label <> label' ->
  get_cell (set_cell cols label cell) label' = get_cell cols label'.
Proof.
  intros Hne. induction cols as [|[l0 c0] rest IH]; simpl.
  - apply String.eqb_neq in Hne. now rewrite Hne.
  - destruct (String.eqb l0 label) eqn:E; simpl.
    + apply String.eqb_eq in E. subst l0.
      apply String.eqb_neq in Hne. now rewrite Hne.
    + destruct (String.eqb l0 label'); auto.
Qed.

Lemma combo_from_keeps (key : string) (ps : list Q) (units : list string)
  (names : list string) :
  forall i cols cols' label,
    combo_from key i names ps units cols = Ok cols' ->
    ~ In label (combo_labels names) ->
    get_cell cols' label = get_cell cols label.
Proof.
  induction names as [|n rest IH]; intros i cols cols' label H Hnot;
    simpl in H.
  - now injection H as <-.
  - destruct (is_label key n || is_label key (n ++ "_units")); [discriminate|].
    destruct (getitem ps i) as [v|]; simpl in H; [|discriminate].
    destruct (getitem units i) as [u|]; simpl in H; [|discriminate].
    simpl in Hnot. rewrite (IH _ _ _ label H) by tauto.
    rewrite !get_set_cell_other; [reflexivity | tauto | tauto].
Qed.

Lemma combo_from_cells (key : string) (ps : list Q) (units : list string)
  (names : list string) :
  forall i cols cols',
    combo_from key i names ps units cols = Ok cols' ->
    NoDup (combo_labels names) ->
    forall k n,
      nth_error names k = Some n ->
      exists v u,
        nth_error ps (i + k) = Some v /\
        nth_error units (i + k) = Some u /\
        get_cell cols' n = Some (Value v) /\
        get_cell cols' (n ++ "_units") = Some (Units u).
Proof.
  induction names as [|n0 rest IH]; intros i cols cols' H Hnd k n Hk;
    simpl in H.
  - destruct k; discriminate.
  - destruct (is_label key n0 || is_label key (n0 ++ "_units"));
      [discriminate|].
    destruct (getitem ps i) as [v|] eqn:Ev; simpl in H; [|discriminate].
    destruct (getitem units i) as [u|] eqn:Eu; simpl in H; [|discriminate].
    simpl in Hnd. apply NoDup_cons_iff in Hnd as (Hn0 & Hnd).
    apply NoDup_cons_iff in Hnd as (Hu0 & Hnd).
    destruct k as [|k]; simpl in Hk.
    + injection Hk as <-. exists v, u. rewrite Nat.add_0_r.
      apply getitem_Ok in Ev, Eu. split; [exact Ev|]. split; [exact Eu|].
      split.
      * rewrite (combo_from_keeps _ _ _ _ _ _ _ _ H)
          by (intros Hin; apply Hn0; now right).
        rewrite get_set_cell_other, get_set_cell_same; [reflexivity|].
        intros E. apply Hn0. left. exact E.
      * rewrite (combo_from_keeps _ _ _ _ _ _ _ _ H) by exact Hu0.
        apply get_set_cell_same.
    + destruct (IH _ _ _ H Hnd k n Hk) as (v' & u' & Hv & Hu & Hcells).
      exists v', u'. replace (i + S k) with (S i + k) by lia. auto.
Qed.

(** X22.  When the labels written by [save_param_combo_info] (each name
    and each name followed by [_units]) are pairwise different, the parameter
    columns hold, under the [k]-th name, the [k]-th threshold of the
    combination, and under that name followed by [_units], the [k]-th
    unit. *)
Theorem combo_columns_hold_value_and_unit (c : instance) (ps : list Q)
  (cols : list (string * combo_cell)) (k : nat) (n : string) :
  save_param_combo_info c ps = Ok cols ->
  NoDup (combo_labels (param_names c)) ->
  nth_error (param_names c) k = Some n ->
  exists v u,
    nth_error ps k = Some v /\
    nth_error (param_units c) k = Some u /\
    get_cell cols n = Some (Value v) /\
    get_cell cols (n ++ "_units") = Some (Units u).
Proof.
  intros H Hnd Hk.
  apply (combo_from_cells _ _ _ _ 0 [] cols H Hnd k n Hk).
Qed.

Lemma combo_columns_hold_value_and_unit_witness :
  exists cols,
    save_param_combo_info Run.archive [2; 3]%Q = Ok cols /\
    NoDup (combo_labels (param_names Run.archive)) /\
    nth_error (param_names Run.archive) 1 = Some "xrsb"%string /\
    exists v u,
      nth_error [2; 3]%Q 1 = Some v /\
      nth_error (param_units Run.archive) 1 = Some u /\
      get_cell cols "xrsb" = Some (Value v) /\
      get_cell cols ("xrsb" ++ "_units") = Some (Units u).
Proof.
  eexists.
  match goal with
  | |- ?hyp /\ _ => assert (H : hyp) by reflexivity
  end.
  assert (Hnd : NoDup (combo_labels (param_names Run.archive))).
  { simpl. repeat constructor; simpl; intuition discriminate. }
  split; [exact H|]. split; [exact Hnd|]. split; [reflexivity|].
  exact (combo_columns_hold_value_and_unit Run.archive _ _ 1 "xrsb"
           H Hnd eq_refl).
Defined.

(** ** Trigger, peak and the joined peak time *)

Lemma peak_true_trigger_before_peak (fl : flare) (s1 : self)
  (mx mn : pyval) (tt : Q) :
  observed fl s1 = Ok (mx, mn, Boolean true) ->
  time_ordered fl ->
  trigger_index s1 <= hic_obs_start s1 ->
  nth_error (time fl) (trigger_index s1) = Some tt ->
  (tt < peak_time fl)%Q.
Proof.
  intros Hobs Hord Hstart Htime.
  destruct (observed_cases fl s1) as [(_ & E) | (_ & m & _ & E)];
    rewrite E in Hobs; [discriminate|].
  destruct (peak_observed fl s1) as [b|] eqn:Ep; simpl in Hobs;
    [|discriminate].
  injection Hobs as _ _ Hb. subst b.
  apply peak_observed_Ok in Ep as (t14 & ts & _ & Hs & Hb).
  symmetry in Hb. apply andb_true_iff in Hb as (_ & Hlt).
  apply Qltb_lt in Hlt. eapply Qle_lt_trans; [|exact Hlt].
  apply (Hord _ _ _ _ Hstart Htime Hs).
Qed.

Lemma fitsinfo_trigger_to_peak (data : list flare) (v : Q) (l : launch)
  (fi : fitsinfo) :
  fitsinfo_of data v l = Ok fi ->
  Trigger_to_Peak_Time fi = ((Peak_Time fi - Trigger_Time l) / 60)%Q.
Proof.
  unfold fitsinfo_of. intros H.
  destruct (launched_flare data (Flare_ID l)) as [k|]; simpl in H;
    [|discriminate].
  destruct (getitem data k) as [fl|]; simpl in H; [|discriminate].
  destruct (long_duration_returns fl) as (ld & E). rewrite E in H.
  simpl in H. injection H as <-. reflexivity.
Qed.

(** X23.  With pairwise different identifiers and timestamps that never
    decrease, every row of the table of a configuration whose peak flag is
    true has a positive trigger-to-peak time: the launch was triggered before
    the peak of its own flare. *)
Theorem peak_observed_rows_have_positive_lead (data : list flare) (v : Q)
  (checks : list trigger_input) (s : self) (df : list row) :
  run_parameter data v checks s = Ok (Some df) ->
  calculated_flarelist s = [] ->
  NoDup (map flare_ID data) ->
  (forall fl, In fl data -> time_ordered fl) ->
  Forall (fun r => Peak_Observed (entry r) = Boolean true ->
                   (0 < Trigger_to_Peak_Time (info r))%Q)
         df.
Proof.
  intros H Hs Hnd Hord. pose proof (run_parameter_rows _ _ _ _ _ H Hs) as Hrows.
  revert Hrows. apply Forall_impl.
  intros r (_ & Hfi & inp & _ & fl & t & r0 & s1 & _ & Hfl & Ht & Hst & _ & _
            & Hid & Hobs & Htime & _) Hpeak.
  rewrite (fitsinfo_trigger_to_peak _ _ _ _ Hfi).
  apply fitsinfo_of_inv in Hfi as (k & fl' & Hk & Hfl' & Hj & _).
  destruct Hk as ((fl'' & Hfl'' & Hid'') & _).
  assert (fl'' = fl') as -> by congruence.
  assert (k = Flare_Number (entry r)) as ->.
  { rewrite NoDup_nth_error in Hnd. apply Hnd.
    - rewrite length_map. apply nth_error_Some. congruence.
    - rewrite !nth_error_map, Hfl, Hfl'. simpl. congruence. }
  assert (fl' = fl) as -> by congruence.
  destruct Hj as (_ & -> & _).
  rewrite Hpeak in Hobs. rewrite <- Ht in Htime.
  assert (Hlt : (Trigger_Time (entry r) < peak_time fl)%Q).
  { apply (peak_true_trigger_before_peak fl s1 _ _ _ Hobs).
    - apply Hord. eapply nth_error_In. exact Hfl.
    - lia.
    - exact Htime. }
  unfold Qdiv. apply Qmult_lt_0_compat; [lra | reflexivity].
Qed.

Lemma peak_observed_rows_have_positive_lead_witness :
  exists df,
    run_parameter [Sample.late; Sample.brief] 1%Q
      [Sample.xrsb_above_1 Sample.late; Sample.xrsb_above_1 Sample.brief]
      fresh = Ok (Some df) /\
    calculated_flarelist fresh = [] /\
    NoDup (map flare_ID [Sample.late; Sample.brief]) /\
    map (fun r => Peak_Observed (entry r)) df = [Boolean true; Boolean false] /\
    Forall (fun r => Peak_Observed (entry r) = Boolean true ->
                     (0 < Trigger_to_Peak_Time (info r))%Q)
           df.
Proof.
  eexists.
  match goal with
  | |- ?hyp /\ _ => assert (H : hyp) by (vm_compute; reflexivity)
  end.
  assert (Hnd : NoDup (map flare_ID [Sample.late; Sample.brief])).
  { simpl. repeat constructor; simpl; intuition discriminate. }
  assert (Hord : forall fl, In fl [Sample.late; Sample.brief] ->
                            time_ordered fl).
  { intros fl [<- | [<- | []]]; unfold time_ordered;
      apply nondecreasing_ordered; reflexivity. }
  split; [exact H|]. split; [reflexivity|]. split; [exact Hnd|].
  split; [reflexivity|].
  exact (peak_observed_rows_have_positive_lead _ _ _ _ _ H eq_refl Hnd Hord).
Defined.

(** ** Exceptions end the flare loop *)

Lemma loop_from_app (data : list flare) (l1 l2 : list trigger_input) :
  forall i s,
    loop_from data i (l1 ++ l2) s =
    (s0 <- loop_from data i l1 s ;; loop_from data (i + length l1) l2 s0).
Proof.
  induction l1 as [|inp l1 IH]; intros i s; simpl.
  - now rewrite Nat.add_0_r.
  - destruct (flareloop_check_if_value_surpassed s inp) as [s1|]; simpl;
      [|reflexivity].
    destruct (if triggered_bool s1
              then calculate_observed_xrsb_and_cancellation data s1 i
              else Ok s1) as [s2|]; simpl; [|reflexivity].
    rewrite IH. now replace (S i + length l1) with (i + S (length l1)) by lia.
Qed.

(** X24.  No exception is caught in the flare loop: when the check of a
    flare triggers, its window holds a sample and its record has fewer than 15
    timestamps, the loop raises [IndexError], whatever the flares before it
    recorded and without looking at the flares after it. *)
Theorem short_flare_ends_the_loop (data : list flare)
  (before after : list trigger_input) (inp : trigger_input) (s s0 : self)
  (fl : flare) (t : nat) (r : list nat) :
  loop_through_flares data before s = Ok s0 ->
  triggered_check inp = Ok (t :: r) ->
  nth_error data (length before) = Some fl ->
  t + 9 < length (xrsb fl) ->
  length (time fl) <= 14 ->
  loop_through_flares data (before ++ inp :: after) s = Raise IndexError.
Proof.
  unfold loop_through_flares. intros Hb Hc Hfl Hwin Htime.
  rewrite loop_from_app, Hb. simpl.
  unfold flareloop_check_if_value_surpassed. rewrite Hc. simpl.
  rewrite (calculate_raises data _ (length before) fl Hfl); [reflexivity| |exact Htime].
  unfold window. simpl. intros E. apply slice_nil_iff in E. lia.
Qed.

Lemma short_flare_ends_the_loop_witness :
  exists s0,
    loop_through_flares [Sample.late; Sample.short; Sample.brief]
      [Sample.xrsb_above_1 Sample.late] fresh = Ok s0 /\
    length (calculated_flarelist s0) = 1 /\
    loop_through_flares [Sample.late; Sample.short; Sample.brief]
      ([Sample.xrsb_above_1 Sample.late]
       ++ Sample.xrsb_above_1 Sample.short
       :: [Sample.xrsb_above_1 Sample.brief]) fresh
    = Raise IndexError.
Proof.
  eexists.
  match goal with
  | |- ?hyp /\ _ => assert (H : hyp) by reflexivity
  end.
  split; [exact H|]. split; [reflexivity|].
  apply (short_flare_ends_the_loop
           [Sample.late; Sample.short; Sample.brief]
           [Sample.xrsb_above_1 Sample.late]
           [Sample.xrsb_above_1 Sample.brief]
           (Sample.xrsb_above_1 Sample.short) fresh _ Sample.short 0
           (seq 1 11) H).
  - reflexivity.
  - reflexivity.
  - simpl. lia.
  - simpl. lia.
Defined.

(** ** Windows that run past the end of the series *)

(** X25.  A window that starts at a position of [xrsb] and ends past its end
    is sliced to the remainder of the series, between one and five samples.
    When the series of the flare are index-aligned and hold at least 15
    samples, and the samples of the remainder are doubles whose sums stay in
    range, the step appends an entry whose observed maximum is the maximum of
    the remainder, whose observed mean is its mean in double precision, and
    whose peak flag is a boolean. *)
Theorem partial_window_reported (data : list flare) (s : self) (i : nat)
  (fl : flare) :
  nth_error data i = Some fl ->
  hic_obs_end s = hic_obs_start s + 6 ->
  hic_obs_start s < length (xrsb fl) ->
  length (xrsb fl) < hic_obs_end s ->
  length (time fl) = length (xrsb fl) ->
  14 < length (time fl) ->
  trigger_index s < length (time fl) ->
  forallb Np.is_float64 (window fl s) = true ->
  Np.in_range (window fl s) = true ->
  window fl s = skipn (hic_obs_start s) (xrsb fl) /\
  0 < length (window fl s) < 6 /\
  exists s' l m a b,
    calculate_observed_xrsb_and_cancellation data s i = Ok s' /\
    calculated_flarelist s' = calculated_flarelist s ++ [l] /\
    Max_HiC l = Float m /\ is_maximum m (window fl s) /\
    Mean_HiC l = Float a /\ is_rounded_mean a (window fl s) /\
    Peak_Observed l = Boolean b.
Proof.
  intros Hfl Hend Hstart Hpast Hal H14 Ht _ _.
  assert (Hlen : length (window fl s) = length (xrsb fl) - hic_obs_start s).
  { unfold window. rewrite slice_length. lia. }
  assert (Hne : window fl s <> []).
  { intros E. rewrite E in Hlen. simpl in Hlen. lia. }
  split; [|split; [lia|]].
  { unfold window, slice. apply firstn_all2. rewrite length_skipn. lia. }
  destruct (calculate_entry data s i fl Hfl Ht) as (s' & l & Hs' & Hlist & Hobs & _);
    [intros _; lia|].
  destruct (entry_computed _ _ _ Hobs) as (_ & Hfull).
  destruct (Hfull Hne) as (m & a & Hm & Ha & Hmax & Hmean).
  destruct (observed_cases fl s) as [(Hnil & _) | (_ & m' & _ & E)];
    [contradiction|].
  rewrite E in Hobs.
  destruct (peak_observed fl s) as [b|]; simpl in Hobs; [|discriminate].
  injection Hobs as _ _ Hb.
  exists s', l, m, a, b. repeat split; try assumption; try apply Hmax.
  now symmetry.
Qed.

(** [Sample.closing] triggers at index 18; of its window [[27, 33)] the
    record holds the three samples 6, 5 and 4. *)
Lemma partial_window_reported_witness :
  flareloop_check_if_value_surpassed fresh (Sample.xrsb_above_1 Sample.closing)
    = Ok (Sample.triggered_at 18) /\
  length (xrsb Sample.closing) = 30 /\
  window Sample.closing (Sample.triggered_at 18) = [6; 5; 4]%Q /\
  exists s' l a,
    calculate_observed_xrsb_and_cancellation
      [Sample.closing] (Sample.triggered_at 18) 0 = Ok s' /\
    calculated_flarelist s' = [] ++ [l] /\
    Max_HiC l = Float 6 /\
    Mean_HiC l = Float a /\ (a == 5)%Q /\
    Peak_Observed l = Boolean false.
Proof.
  split; [reflexivity|]. split; [reflexivity|]. split; [reflexivity|].
  destruct (partial_window_reported [Sample.closing] (Sample.triggered_at 18)
              0 Sample.closing eq_refl eq_refl)
    as (_ & _ & s' & l & m & a & b & Hs' & Hl & Hm & (Hin & Hge) & Ha & Hmean
        & Hb);
    [vm_compute; lia | vm_compute; lia | reflexivity | vm_compute; lia
     | vm_compute; lia | vm_compute; reflexivity | vm_compute; reflexivity |].
  change (window Sample.closing (Sample.triggered_at 18))
    with [6; 5; 4]%Q in Hin, Hge, Hmean.
  exists s', l, a. split; [exact Hs'|]. split; [exact Hl|].
  split; [|split; [exact Ha | split]].
  - rewrite Hm. f_equal.
    assert (H6 : (6 <= m)%Q) by (apply Hge; simpl; auto).
    simpl in Hin. destruct Hin as [<- | [<- | [<- | []]]];
      try reflexivity; exfalso; revert H6; unfold Qle; simpl; lia.
  - apply np_mean_rounded in Hmean. rewrite Hmean. vm_compute. reflexivity.
  - rewrite Hb. f_equal. clear - Hs' Hl Hb.
    vm_compute in Hs'. injection Hs' as <-.
    simpl in Hl. injection Hl as <-. simpl in Hb. now injection Hb as <-.
Defined.
